(** * udp_echo: an address-aware UDP echo service

    Shallow embedding of [src/udp_echo.c] and the properties of its
    ancillary-data decoder ([pktinfo_get]), its logging helper
    ([print_info]) and its service loop ([main]).

    Modelling conventions
    - C [int] values are [Z]; the only arithmetic the program performs on
      an [int] is [--count], whose two's-complement wrap-around is written
      out in [wrap32].
    - Buffers and structs that the program copies with [memcpy] or
      reinterprets through pointer casts are [list byte]; fields are read
      at their byte offsets.
    - The operating system is an explicit oracle ([world]): the outcome of
      [bind], of the two [setsockopt] calls, and the sequence of results
      that successive [recvmsg] calls deliver.
    - Everything the program does that is visible from outside (system
      calls, lines on stdout and stderr) is recorded in a trace of
      [event]s, in program order. *)

From Stdlib Require Import String.
From Stdlib Require Import Strings.Byte.
From Stdlib Require Import ZArith List Bool Lia.
Import ListNotations.

Local Open Scope Z_scope.

(** ** Constants of the platform headers

    The numeric values are those of Linux ([<sys/socket.h>],
    [<netinet/in.h>], [<linux/in.h>], [<linux/in6.h>]).  No proof below
    depends on the particular numbers, only on the two (level, type)
    pairs being distinct. *)

Definition AF_INET : Z := 2.
Definition AF_INET6 : Z := 10.
Definition SOCK_DGRAM : Z := 2.
Definition IPPROTO_IP : Z := 0.
Definition SOL_IP : Z := 0.
Definition IPPROTO_IPV6 : Z := 41.
Definition IP_PKTINFO : Z := 8.
Definition IPV6_RECVPKTINFO : Z := 49.
Definition IPV6_PKTINFO : Z := 50.

(** [#define PORT 4040] and [#define DEBUG 1]. *)
Definition PORT : Z := 4040.
Definition DEBUG : bool := true.

(** [sizeof(struct in_pktinfo)], [sizeof(struct in6_pktinfo)],
    [char frame[8192]], [char cbuf[512]]. *)
Definition sizeof_in_pktinfo : nat := 12.
Definition sizeof_in6_pktinfo : nat := 20.
Definition sizeof_frame : Z := 8192.
Definition sizeof_cbuf : Z := 512.

(** ** Raw memory helpers *)

(** [memcpy dst src n]: the first [n] bytes of [dst] are replaced by the
    first [n] bytes found at [src].  (Should [src] hold fewer than [n]
    bytes, only those are taken; the C call would read on past them.
    The statements about copied values assume [n] bytes at [src].) *)
Definition memcpy (dst src : list byte) (n : nat) : list byte :=
  firstn n src ++ skipn n dst.

(** The [len] bytes at byte offset [off] of a buffer: a field access
    through a struct pointer. *)
Definition field (off len : nat) (buf : list byte) : list byte :=
  firstn len (skipn off buf).

(** [struct in_pktinfo { int ipi_ifindex; struct in_addr ipi_spec_dst;
    struct in_addr ipi_addr; }] *)
Definition in_pktinfo := list byte.
Definition ipi_ifindex (p : in_pktinfo) : list byte := field 0 4 p.
Definition ipi_spec_dst (p : in_pktinfo) : list byte := field 4 4 p.
Definition ipi_addr (p : in_pktinfo) : list byte := field 8 4 p.

(** [struct in6_pktinfo { struct in6_addr ipi6_addr;
    unsigned int ipi6_ifindex; }] *)
Definition in6_pktinfo := list byte.
Definition ipi6_addr (p : in6_pktinfo) : list byte := field 0 16 p.
Definition ipi6_ifindex (p : in6_pktinfo) : list byte := field 16 4 p.

(** [struct sockaddr_in] and [struct sockaddr_in6], as overlaid on the
    [sockaddr_storage] that [msg_name] points to. *)
Definition sin_port (a : list byte) : list byte := field 2 2 a.
Definition sin_addr (a : list byte) : list byte := field 4 4 a.
Definition sin6_port (a : list byte) : list byte := field 2 2 a.
Definition sin6_addr (a : list byte) : list byte := field 8 16 a.

(** ** Ancillary data

    One control message: the three header fields of [struct cmsghdr] and
    the bytes that [CMSG_DATA] points to. *)
Record cmsghdr : Type := mk_cmsghdr {
  cmsg_len : Z;
  cmsg_level : Z;
  cmsg_type : Z;
  cmsg_data : list byte
}.

(** [struct msghdr].  [msg_control] is the sequence of headers that the
    libc iteration [CMSG_FIRSTHDR] / [CMSG_NXTHDR] visits, in delivery
    order; [msg_iov_len] is [vec[0].iov_len], the single I/O vector always
    pointing at [frame]. *)
Record msghdr : Type := mk_msghdr {
  msg_name : list byte;
  msg_namelen : Z;
  msg_iov_len : Z;
  msg_control : list cmsghdr;
  msg_controllen : Z
}.

(** ** Observable events *)

(** The text that [inet_ntop] leaves in [to_addr] / [from_addr]: either
    the rendering of an address of a family, or nothing was written and
    the stack buffer is printed as it is. *)
Inductive addr_text : Type :=
| Ntop (family : Z) (addr : list byte)
| Unwritten.

Inductive event : Type :=
| Sys_socket (family type : Z)
| Sys_bind (family port ret : Z)
| Sys_setsockopt (level optname ret : Z)
| Sys_recvmsg (res : Z)
| Sys_sendmsg (hdr : msghdr) (payload : list byte)
| Perror (msg : string)
| Stderr_unknown_ancillary (len level type : Z)
| Stderr_no_destination
| Stdout_contacted (to_addr from_addr : addr_text) (rem_port : option (list byte))
| Stdout_extra (hdr_dst : list byte) (ifindex : list byte)
| Stdout_echo_size (size : Z).

(** A diagnostic is anything written to stderr. *)
Definition is_diagnostic (e : event) : bool :=
  match e with
  | Perror _ | Stderr_unknown_ancillary _ _ _ | Stderr_no_destination => true
  | _ => false
  end.

(** ** [pktinfo_get] *)

Definition is_ip_pktinfo (c : cmsghdr) : bool :=
  (cmsg_level c =? IPPROTO_IP) && (cmsg_type c =? IP_PKTINFO).

Definition is_ipv6_pktinfo (c : cmsghdr) : bool :=
  (cmsg_level c =? IPPROTO_IPV6) && (cmsg_type c =? IPV6_PKTINFO).

(** What [pktinfo_get] leaves behind: its return value, the two
    out-parameters, and what it wrote to stderr. *)
Record pktinfo_result : Type := mk_pktinfo_result {
  pr_res : Z;
  pr_pktinfo : in_pktinfo;
  pr_pktinfo6 : in6_pktinfo;
  pr_stderr : list event
}.

(** The body of the [for] loop over the control messages. *)
Fixpoint pktinfo_scan (cmsgs : list cmsghdr) (res : Z)
    (pktinfo : in_pktinfo) (pktinfo6 : in6_pktinfo) : pktinfo_result :=
  match cmsgs with
  | [] => mk_pktinfo_result res pktinfo pktinfo6 []
  | get_cmsg :: next =>
      if is_ip_pktinfo get_cmsg then
        pktinfo_scan next AF_INET
          (memcpy pktinfo (cmsg_data get_cmsg) sizeof_in_pktinfo) pktinfo6
      else if is_ipv6_pktinfo get_cmsg then
        pktinfo_scan next AF_INET6
          pktinfo (memcpy pktinfo6 (cmsg_data get_cmsg) sizeof_in6_pktinfo)
      else if DEBUG then
        let r := pktinfo_scan next res pktinfo pktinfo6 in
        mk_pktinfo_result (pr_res r) (pr_pktinfo r) (pr_pktinfo6 r)
          (Stderr_unknown_ancillary (cmsg_len get_cmsg) (cmsg_level get_cmsg)
             (cmsg_type get_cmsg) :: pr_stderr r)
      else pktinfo_scan next res pktinfo pktinfo6
  end.

Definition pktinfo_get (my_hdr : msghdr) (pktinfo : in_pktinfo)
    (pktinfo6 : in6_pktinfo) : pktinfo_result :=
  let res := -1 in
  if msg_controllen my_hdr >? 0 then
    pktinfo_scan (msg_control my_hdr) res pktinfo pktinfo6
  else mk_pktinfo_result res pktinfo pktinfo6 [].

(** The reading that the caller makes of the result: the return value
    selects which out-parameter is meaningful. *)
Inductive LocalDestinationInfo : Type :=
| Dest_IPv4 (info : in_pktinfo)
| Dest_IPv6 (info : in6_pktinfo)
| Absent.

Definition destination_info (r : pktinfo_result) : LocalDestinationInfo :=
  if pr_res r =? AF_INET then Dest_IPv4 (pr_pktinfo r)
  else if pr_res r =? AF_INET6 then Dest_IPv6 (pr_pktinfo6 r)
  else Absent.

(** ** [print_info] *)

(** [pktinfo] and [pktinfo6] are locals without initialiser; their bytes
    are read only after [pktinfo_get] has filled them. *)
Definition uninitialised (n : nat) : list byte := repeat x00 n.

(** [verbose] is the file-scope variable, passed explicitly.  [inet_ntop]
    is given [INET6_ADDRSTRLEN] bytes of room and one of the two families
    it supports, so its failure branch ([perror]) is not taken. *)
Definition print_info (verbose : Z) (my_hdr : msghdr) : list event :=
  let r := pktinfo_get my_hdr (uninitialised sizeof_in_pktinfo)
             (uninitialised sizeof_in6_pktinfo) in
  let addr_family := pr_res r in
  let pktinfo := pr_pktinfo r in
  let pktinfo6 := pr_pktinfo6 r in
  let rem_addr := msg_name my_hdr in
  pr_stderr r ++
  (if addr_family =? AF_INET then
     [Stdout_contacted (Ntop addr_family (ipi_spec_dst pktinfo))
        (Ntop addr_family (sin_addr rem_addr)) (Some (sin_port rem_addr))]
   else if addr_family =? AF_INET6 then
     [Stdout_contacted (Ntop addr_family (ipi6_addr pktinfo6))
        (Ntop addr_family (sin6_addr rem_addr)) (Some (sin6_port rem_addr))]
   else
     [Stderr_no_destination; Stdout_contacted Unwritten Unwritten None]) ++
  (if DEBUG && negb (verbose =? 0) && (addr_family =? AF_INET) then
     [Stdout_extra (ipi_addr pktinfo) (ipi_ifindex pktinfo)]
   else []).

(** ** Command line *)

(** One option as [getopt(argc, argv, "c:l:64v:")] returns it, with
    [atoi(optarg)] already evaluated for the options that take an
    argument. *)
Inductive option_arg : Type :=
| Opt_c (n : Z)
| Opt_l (n : Z)
| Opt_4
| Opt_6
| Opt_v (n : Z)
| Opt_unknown.

Record config : Type := mk_config {
  count : Z;
  listen_port : Z;
  addr_family : Z;
  verbose : Z
}.

(** The initialisers of [main]'s locals and of [verbose]. *)
Definition default_config : config :=
  mk_config 1000000 PORT AF_INET6 1.

(** Conversion to [uint16_t] on assignment to [listen_port]. *)
Definition to_uint16 (n : Z) : Z := n mod 65536.

Definition set_option (cfg : config) (c : option_arg) : config :=
  match c with
  | Opt_c n => mk_config n (listen_port cfg) (addr_family cfg) (verbose cfg)
  | Opt_l n => mk_config (count cfg) (to_uint16 n) (addr_family cfg) (verbose cfg)
  | Opt_4 => mk_config (count cfg) (listen_port cfg) AF_INET (verbose cfg)
  | Opt_6 => mk_config (count cfg) (listen_port cfg) AF_INET6 (verbose cfg)
  | Opt_v n => mk_config (count cfg) (listen_port cfg) (addr_family cfg) n
  | Opt_unknown => cfg
  end.

Definition parse_options (argv : list option_arg) : config :=
  fold_left set_option argv default_config.

(** ** Operating-system oracle *)

(** What one call of [recvmsg] delivers: a failure ([-1]), or a datagram
    with its payload, the sender's socket address, and the control
    messages the kernel attached together with the resulting
    [msg_controllen]. *)
Inductive recv_result : Type :=
| Recv_error
| Recv_datagram (payload sender : list byte) (control : list cmsghdr)
    (controllen : Z).

(** The three stack buffers of [main] that are reused in place by every
    iteration. *)
Record buffers : Type := mk_buffers {
  frame : list byte;
  cbuf : list cmsghdr;
  rem_addr : list byte
}.

Record world : Type := mk_world {
  w_bind : Z;
  w_setsockopt_ip : Z;
  w_setsockopt_ipv6 : Z;
  w_stack : buffers;
  w_incoming : list recv_result
}.

(** [recvmsg(fd, &msghdr, 0)] on a datagram socket: at most [iov_len]
    bytes of the payload are stored at the start of [frame] and their
    number is returned; name and control fields are filled in. *)
Definition recvmsg (r : recv_result) (hdr : msghdr) (frm : list byte)
    : Z * msghdr * list byte :=
  match r with
  | Recv_error => (-1, hdr, frm)
  | Recv_datagram payload sender control controllen =>
      let n := Z.min (Z.of_nat (length payload)) (msg_iov_len hdr) in
      (n,
       mk_msghdr sender (Z.of_nat (length sender)) (msg_iov_len hdr)
         control controllen,
       memcpy frm payload (Z.to_nat n))
  end.

(** [sendmsg(fd, &msghdr, 0)]: the datagram handed to the kernel carries
    the [iov_len] bytes at the start of [frame]. *)
Definition sendmsg (hdr : msghdr) (frm : list byte) : event :=
  Sys_sendmsg hdr (firstn (Z.to_nat (msg_iov_len hdr)) frm).

(** ** [main] *)

(** [int] arithmetic, two's complement on 32 bits.  C leaves the
    decrement of [INT_MIN] undefined; it is taken to wrap round, as it
    does on the usual targets. *)
Definition wrap32 (z : Z) : Z := (z + 2 ^ 31) mod 2 ^ 32 - 2 ^ 31.

Definition sizeof_sockaddr_storage : Z := 128.

(** How a run ends: [main] returned with a status, or the process is
    blocked in [recvmsg] because nothing more has arrived. *)
Inductive outcome : Type :=
| Exited (status : Z)
| Receiving.

(** The [while (1)] loop.  Recursion is on the results still to be
    delivered by [recvmsg]. *)
Fixpoint service_loop (verbose count : Z) (bufs : buffers)
    (incoming : list recv_result) : list event * outcome :=
  match incoming with
  | [] => ([], Receiving)
  | r :: later =>
      let msghdr0 := mk_msghdr (rem_addr bufs) sizeof_sockaddr_storage
                       sizeof_frame (cbuf bufs) sizeof_cbuf in
      let '(res, msghdr1, frame1) := recvmsg r msghdr0 (frame bufs) in
      if res =? -1 then ([Sys_recvmsg res], Exited 0)
      else
        let log :=
          if verbose >? 0 then
            print_info verbose msghdr1 ++ [Stdout_echo_size res]
          else [] in
        let msghdr2 := mk_msghdr (msg_name msghdr1) (msg_namelen msghdr1)
                         res (msg_control msghdr1) (msg_controllen msghdr1) in
        let sent := sendmsg msghdr2 frame1 in
        let count' := wrap32 (count - 1) in
        if count' =? 0 then
          (Sys_recvmsg res :: log ++ [sent], Exited 0)
        else
          let bufs' := mk_buffers frame1 (msg_control msghdr1)
                         (msg_name msghdr1) in
          let '(t, o) := service_loop verbose count' bufs' later in
          (Sys_recvmsg res :: log ++ sent :: t, o)
  end.

Definition main (argv : list option_arg) (w : world) : list event * outcome :=
  let cfg := parse_options argv in
  let setup := [Sys_socket (addr_family cfg) SOCK_DGRAM;
                Sys_bind (addr_family cfg) (listen_port cfg) (w_bind w)] in
  if w_bind w =? -1 then
    (setup ++ [Perror "bind"%string], Exited 1)
  else
    let opts := [Sys_setsockopt SOL_IP IP_PKTINFO (w_setsockopt_ip w);
                 Sys_setsockopt IPPROTO_IPV6 IPV6_RECVPKTINFO
                   (w_setsockopt_ipv6 w)] in
    let '(t, o) := service_loop (verbose cfg) (count cfg) (w_stack w)
                     (w_incoming w) in
    (setup ++ opts ++ t, o).

(** ** Reading a trace *)

Definition diagnostics (t : list event) : list event :=
  filter is_diagnostic t.

Definition is_datagram (r : recv_result) : bool :=
  match r with Recv_datagram _ _ _ _ => true | Recv_error => false end.

(** ** Vocabulary of the statements *)

(** The two address families of the data model and, for each, the
    record the decoder recognises, the size of its payload struct, the
    out-parameter it is copied to and the value returned for it. *)
Inductive LocalAddressFamily : Type := IPv4 | IPv6.

Definition other_family (f : LocalAddressFamily) : LocalAddressFamily :=
  match f with IPv4 => IPv6 | IPv6 => IPv4 end.

Definition af_of (f : LocalAddressFamily) : Z :=
  match f with IPv4 => AF_INET | IPv6 => AF_INET6 end.

Definition is_pktinfo_of (f : LocalAddressFamily) (c : cmsghdr) : bool :=
  match f with IPv4 => is_ip_pktinfo c | IPv6 => is_ipv6_pktinfo c end.

Definition sizeof_pktinfo_of (f : LocalAddressFamily) : nat :=
  match f with IPv4 => sizeof_in_pktinfo | IPv6 => sizeof_in6_pktinfo end.

Definition out_param (f : LocalAddressFamily) (r : pktinfo_result)
    : list byte :=
  match f with IPv4 => pr_pktinfo r | IPv6 => pr_pktinfo6 r end.

(** A destination-info record of either family. *)
Definition recognized (c : cmsghdr) : bool :=
  is_ip_pktinfo c || is_ipv6_pktinfo c.

Definition unrecognized (c : cmsghdr) : bool := negb (recognized c).

(** The family a destination-info record stands for. *)
Definition family_of_record (c : cmsghdr) : Z :=
  if is_ip_pktinfo c then AF_INET else AF_INET6.

(** The stderr line for a record that is not decoded. *)
Definition unknown_diag (c : cmsghdr) : event :=
  Stderr_unknown_ancillary (cmsg_len c) (cmsg_level c) (cmsg_type c).

(** The same header around another sequence of control messages. *)
Definition with_control (h : msghdr) (l : list cmsghdr) : msghdr :=
  mk_msghdr (msg_name h) (msg_namelen h) (msg_iov_len h) l (msg_controllen h).

Definition payload_of (r : recv_result) : list byte :=
  match r with
  | Recv_datagram payload _ _ _ => payload
  | Recv_error => []
  end.

(** The payload of a delivered datagram is no longer than [frame]. *)
Definition fits_frame (r : recv_result) : bool :=
  Z.of_nat (length (payload_of r)) <=? sizeof_frame.

(** The calls of [sendmsg] of a run, in order: the header passed and the
    payload that goes out. *)
Definition sends (t : list event) : list (msghdr * list byte) :=
  flat_map (fun e => match e with
                     | Sys_sendmsg h p => [(h, p)]
                     | _ => []
                     end) t.

(** Length ([iov_len]) and payload of every reply of a run, in order. *)
Definition echoes (t : list event) : list (Z * list byte) :=
  map (fun r => (msg_iov_len (fst r), snd r)) (sends t).

(** The successful returns of [recvmsg] in a run, in order. *)
Definition received (t : list event) : list Z :=
  flat_map (fun e => match e with
                     | Sys_recvmsg res => if res =? -1 then [] else [res]
                     | _ => []
                     end) t.

Definition INT_MIN : Z := - 2 ^ 31.
Definition INT_MAX : Z := 2 ^ 31 - 1.

(** The same world with another sequence of [recvmsg] results. *)
Definition with_incoming (w : world) (l : list recv_result) : world :=
  mk_world (w_bind w) (w_setsockopt_ip w) (w_setsockopt_ipv6 w) (w_stack w) l.

(** Lines written to stdout or stderr, as opposed to system calls. *)
Definition is_output (e : event) : bool :=
  match e with
  | Sys_socket _ _ | Sys_bind _ _ _ | Sys_setsockopt _ _ _
  | Sys_recvmsg _ | Sys_sendmsg _ _ => false
  | _ => true
  end.

(** What one iteration prints between [recvmsg] and [sendmsg]. *)
Definition iteration_log (verbose : Z) (hdr : msghdr) (res : Z) : list event :=
  if verbose >? 0 then print_info verbose hdr ++ [Stdout_echo_size res]
  else [].

(** The number of decrements after which a counter that starts at [c]
    is zero for the first time, in 32-bit arithmetic. *)
Definition replies_until_zero (c : Z) : Z := (c - 1) mod 2 ^ 32 + 1.

(** The reply owed to a delivered datagram: the header that [recvmsg]
    filled in, with [iov_len] set to the length of the payload, and the
    payload itself.  A failed [recvmsg] is owed nothing. *)
Definition reply_to (r : recv_result) : list (msghdr * list byte) :=
  match r with
  | Recv_datagram payload sender control controllen =>
      [(mk_msghdr sender (Z.of_nat (length sender))
          (Z.of_nat (length payload)) control controllen, payload)]
  | Recv_error => []
  end.

(** ** Sample data *)

(** 10.0.0.5 and 10.0.0.9 in network byte order; interface index 2 as a
    little-endian [int]. *)
Definition addr_10_0_0_5 : list byte := [x0a; x00; x00; x05].
Definition addr_10_0_0_9 : list byte := [x0a; x00; x00; x09].
Definition ifindex_2 : list byte := [x02; x00; x00; x00].

Definition mk_in_pktinfo (ifindex spec_dst addr : list byte) : in_pktinfo :=
  ifindex ++ spec_dst ++ addr.

(** An [IP_PKTINFO] control message as the kernel attaches it:
    [cmsg_len = CMSG_LEN(sizeof(struct in_pktinfo))]. *)
Definition cmsg_ip_pktinfo (data : in_pktinfo) : cmsghdr :=
  mk_cmsghdr 28 IPPROTO_IP IP_PKTINFO data.

(** An [IPV6_PKTINFO] control message. *)
Definition cmsg_ipv6_pktinfo (data : in6_pktinfo) : cmsghdr :=
  mk_cmsghdr 36 IPPROTO_IPV6 IPV6_PKTINFO data.

(** A control message the decoder does not know: [SOL_SOCKET] /
    [SCM_TIMESTAMP] with a 16-byte [struct timeval]. *)
Definition cmsg_timestamp : cmsghdr :=
  mk_cmsghdr 32 1 29 (repeat x00 16).

Definition pktinfo_first : in_pktinfo :=
  mk_in_pktinfo ifindex_2 addr_10_0_0_5 addr_10_0_0_5.
Definition pktinfo_second : in_pktinfo :=
  mk_in_pktinfo ifindex_2 addr_10_0_0_9 addr_10_0_0_9.

(** The address ::1 with interface index 2. *)
Definition pktinfo6_loopback : in6_pktinfo :=
  repeat x00 15 ++ [x01] ++ ifindex_2.

(** A [sockaddr_in6] for [::1], port 4040. *)
Definition sender6 : list byte :=
  [x0a; x00; x0f; xc8] ++ repeat x00 4 ++ repeat x00 15 ++ [x01]
  ++ repeat x00 4.

(** A header as [recvmsg] leaves it, around the given control messages. *)
Definition sample_hdr (control : list cmsghdr) (controllen : Z) : msghdr :=
  mk_msghdr sender6 28 sizeof_frame control controllen.

Definition sample_stack : buffers :=
  mk_buffers (repeat x00 (Z.to_nat sizeof_frame)) []
    (repeat x00 (Z.to_nat sizeof_sockaddr_storage)).

(** A world where every call succeeds and the given results arrive. *)
Definition sample_world (incoming : list recv_result) : world :=
  mk_world 0 0 0 sample_stack incoming.

Definition hello : list byte := [x68; x65; x6c; x6c; x6f].

(** ** Vocabulary of the further statements *)

(** The buffer passed for the out-parameter of a family. *)
Definition buffer_of (f : LocalAddressFamily) (pk : in_pktinfo)
    (pk6 : in6_pktinfo) : list byte :=
  match f with IPv4 => pk | IPv6 => pk6 end.

Definition dest_of (f : LocalAddressFamily) (info : list byte)
    : LocalDestinationInfo :=
  match f with IPv4 => Dest_IPv4 info | IPv6 => Dest_IPv6 info end.

(** A destination-info record carries at least the struct that is
    copied out of it. *)
Definition whole_record (c : cmsghdr) : bool :=
  (if is_ip_pktinfo c
   then (sizeof_in_pktinfo <=? length (cmsg_data c))%nat else true) &&
  (if is_ipv6_pktinfo c
   then (sizeof_in6_pktinfo <=? length (cmsg_data c))%nat else true).

(** The reply that a delivered datagram gets whatever its size: at most
    [sizeof_frame] bytes of its payload are stored and sent back. *)
Definition reply_truncated (r : recv_result) : list (msghdr * list byte) :=
  match r with
  | Recv_datagram payload sender control controllen =>
      [(mk_msghdr sender (Z.of_nat (length sender))
          (Z.min (Z.of_nat (length payload)) sizeof_frame) control controllen,
        firstn (Z.to_nat sizeof_frame) payload)]
  | Recv_error => []
  end.

(** The sizes announced by the "Echo back packet" lines of a run. *)
Definition echo_sizes (t : list event) : list Z :=
  flat_map (fun e => match e with
                     | Stdout_echo_size n => [n]
                     | _ => []
                     end) t.

(** Two options that set the same variable of [main]. *)
Definition same_setting (a b : option_arg) : bool :=
  match a, b with
  | Opt_c _, Opt_c _ | Opt_l _, Opt_l _ | Opt_v _, Opt_v _ => true
  | Opt_4, Opt_4 | Opt_4, Opt_6 | Opt_6, Opt_4 | Opt_6, Opt_6 => true
  | _, _ => false
  end.

(** The variable an option sets has the value the option gives it. *)
Definition setting_holds (o : option_arg) (cfg : config) : Prop :=
  match o with
  | Opt_c n => count cfg = n
  | Opt_l n => listen_port cfg = to_uint16 n
  | Opt_4 => addr_family cfg = AF_INET
  | Opt_6 => addr_family cfg = AF_INET6
  | Opt_v n => verbose cfg = n
  | Opt_unknown => True
  end.

(** ** The address passed to [bind]

    [memset(&addr, 0, sizeof(addr))] followed by the two stores through
    the [sockaddr_in] or [sockaddr_in6] view.  [sin_family] is a
    host-order short, whose two bytes are left to the platform
    ([host_short]); [htons] gives the port its network byte order, so
    the bytes of [sin_port] in memory are the high byte and then the low
    byte on every platform. *)

Definition byte_of_Z (z : Z) : byte :=
  match Byte.of_N (Z.to_N (z mod 256)) with
  | Some b => b
  | None => x00
  end.

Definition htons_bytes (port : Z) : list byte :=
  [byte_of_Z (port / 256); byte_of_Z port].

(** Storing [bytes] at byte offset [off] of a buffer. *)
Definition store (off : nat) (bytes buf : list byte) : list byte :=
  firstn off buf ++ bytes ++ skipn (off + length bytes) buf.

Definition bind_address (host_short : Z -> list byte) (cfg : config)
    : list byte :=
  let addr := repeat x00 (Z.to_nat sizeof_sockaddr_storage) in
  if addr_family cfg =? AF_INET then
    store 2 (htons_bytes (listen_port cfg))
      (store 0 (host_short (addr_family cfg)) addr)
  else if addr_family cfg =? AF_INET6 then
    store 2 (htons_bytes (listen_port cfg))
      (store 0 (host_short (addr_family cfg)) addr)
  else addr.

(** The value of two bytes in network byte order, as [ntohs] reads it
    back. *)
Definition network_short (bytes : list byte) : Z :=
  match bytes with
  | [hi; lo] => Z.of_N (Byte.to_N hi) * 256 + Z.of_N (Byte.to_N lo)
  | _ => -1
  end.

(** A little-endian host. *)
Definition little_endian_short (z : Z) : list byte :=
  [byte_of_Z z; byte_of_Z (z / 256)].

(** * Properties *)

(** ** The decoder *)

(** *** Overwriting *)

Lemma ip_pktinfo_not_ipv6 (c : cmsghdr) :
  is_ip_pktinfo c = true -> is_ipv6_pktinfo c = false.
Proof.
  unfold is_ip_pktinfo, is_ipv6_pktinfo, IPPROTO_IP, IPPROTO_IPV6.
  intros H. apply andb_true_iff in H. destruct H as [H _].
  apply Z.eqb_eq in H. rewrite H. reflexivity.
Qed.

Lemma pktinfo_of_exclusive (f : LocalAddressFamily) (c : cmsghdr) :
  is_pktinfo_of f c = true -> is_pktinfo_of (other_family f) c = false.
Proof.
  destruct f; simpl; intros H.
  - now apply ip_pktinfo_not_ipv6.
  - destruct (is_ip_pktinfo c) eqn:E; [|reflexivity].
    apply ip_pktinfo_not_ipv6 in E. congruence.
Qed.

(** Scanning a concatenation is scanning the first part and then the
    second from where the first left the locals. *)
Lemma pktinfo_scan_app (l1 l2 : list cmsghdr) :
  forall res pk pk6,
    let r1 := pktinfo_scan l1 res pk pk6 in
    let r2 := pktinfo_scan l2 (pr_res r1) (pr_pktinfo r1) (pr_pktinfo6 r1) in
    pktinfo_scan (l1 ++ l2) res pk pk6 =
    mk_pktinfo_result (pr_res r2) (pr_pktinfo r2) (pr_pktinfo6 r2)
      (pr_stderr r1 ++ pr_stderr r2).
Proof.
  induction l1 as [|c l1 IH]; intros res pk pk6; cbn zeta.
  - simpl. now destruct (pktinfo_scan l2 res pk pk6).
  - simpl.
    destruct (is_ip_pktinfo c); [apply IH|].
    destruct (is_ipv6_pktinfo c); [apply IH|].
    simpl. rewrite IH. reflexivity.
Qed.

(** Records that are not of family [f] leave [f]'s out-parameter alone. *)
Lemma pktinfo_scan_untouched (f : LocalAddressFamily) (l : list cmsghdr) :
  existsb (is_pktinfo_of f) l = false ->
  forall res pk pk6,
    out_param f (pktinfo_scan l res pk pk6) =
    out_param f (mk_pktinfo_result res pk pk6 []).
Proof.
  induction l as [|c l IH]; intros H res pk pk6; [reflexivity|].
  simpl in H. apply orb_false_iff in H. destruct H as [Hc Hl].
  simpl pktinfo_scan.
  destruct (is_ip_pktinfo c) eqn:E4.
  { rewrite (IH Hl). destruct f; simpl in *; congruence. }
  destruct (is_ipv6_pktinfo c) eqn:E6.
  { rewrite (IH Hl). destruct f; simpl in *; congruence. }
  simpl. specialize (IH Hl res pk pk6). destruct f; exact IH.
Qed.

Lemma last_cons_default {A : Type} (l : list A) (a d : A) :
  last (a :: l) d = last l a.
Proof.
  revert a d. induction l as [|b l IH]; intros a d; [reflexivity|].
  change (last (a :: b :: l) d) with (last (b :: l) d).
  rewrite !IH. reflexivity.
Qed.

(** The return value is the family of the last recognised record, or
    the initial value when there is none. *)
Lemma pktinfo_scan_res (l : list cmsghdr) :
  forall res pk pk6,
    pr_res (pktinfo_scan l res pk pk6) =
    last (map family_of_record (filter recognized l)) res.
Proof.
  induction l as [|c l IH]; intros res pk pk6; [reflexivity|].
  cbn [pktinfo_scan filter]. unfold recognized at 1.
  destruct (is_ip_pktinfo c) eqn:E4.
  { cbn [orb map]. rewrite last_cons_default, IH.
    f_equal. unfold family_of_record. now rewrite E4. }
  destruct (is_ipv6_pktinfo c) eqn:E6.
  { cbn [orb map]. rewrite last_cons_default, IH.
    f_equal. unfold family_of_record. now rewrite E4. }
  cbn [orb DEBUG pr_res]. apply IH.
Qed.

(** Exactly the unrecognised records are reported, in delivery order. *)
Lemma pktinfo_scan_stderr (l : list cmsghdr) :
  forall res pk pk6,
    pr_stderr (pktinfo_scan l res pk pk6) =
    map unknown_diag (filter unrecognized l).
Proof.
  induction l as [|c l IH]; intros res pk pk6; [reflexivity|].
  unfold unrecognized, recognized in *. simpl.
  destruct (is_ip_pktinfo c); simpl; [apply IH|].
  destruct (is_ipv6_pktinfo c); simpl; [apply IH|].
  f_equal. apply IH.
Qed.

(** Unrecognised records change neither the return value nor the
    out-parameters. *)
Lemma pktinfo_scan_filter (l : list cmsghdr) :
  forall res pk pk6,
    let r := pktinfo_scan l res pk pk6 in
    let r' := pktinfo_scan (filter recognized l) res pk pk6 in
    pr_res r = pr_res r' /\ pr_pktinfo r = pr_pktinfo r' /\
    pr_pktinfo6 r = pr_pktinfo6 r'.
Proof.
  induction l as [|c l IH]; intros res pk pk6; cbn zeta; [auto|].
  unfold recognized in *. simpl.
  destruct (is_ip_pktinfo c) eqn:E4; simpl.
  { rewrite E4. apply IH. }
  destruct (is_ipv6_pktinfo c) eqn:E6; simpl.
  { rewrite E4, E6. apply IH. }
  apply IH.
Qed.

(** With no record of family [f] in the block, the return value tells
    whether a record of the other family was seen. *)
Lemma pktinfo_scan_res_other (f : LocalAddressFamily) (l : list cmsghdr) :
  existsb (is_pktinfo_of f) l = false ->
  forall res pk pk6,
    pr_res (pktinfo_scan l res pk pk6) =
    if existsb (is_pktinfo_of (other_family f)) l
    then af_of (other_family f) else res.
Proof.
  induction l as [|c l IH]; intros H res pk pk6; [reflexivity|].
  cbn [existsb] in H |- *. apply orb_false_iff in H. destruct H as [Hc Hl].
  cbn [pktinfo_scan].
  destruct (is_ip_pktinfo c) eqn:E4.
  { destruct f; cbn in Hc |- *; [congruence|].
    rewrite E4, (IH Hl). cbn.
    match goal with |- context [if ?b then _ else _] => now destruct b end. }
  destruct (is_ipv6_pktinfo c) eqn:E6.
  { destruct f; cbn in Hc |- *; [|congruence].
    rewrite E6, (IH Hl). cbn.
    match goal with |- context [if ?b then _ else _] => now destruct b end. }
  cbn [DEBUG pr_res].
  rewrite (IH Hl).
  destruct f; cbn; now rewrite ?E4, ?E6.
Qed.

(** What one destination-info record does to the locals. *)
Lemma pktinfo_scan_record (f : LocalAddressFamily) (c : cmsghdr)
    (l : list cmsghdr) (res : Z) (pk : in_pktinfo) (pk6 : in6_pktinfo) :
  is_pktinfo_of f c = true ->
  exists pk' pk6',
    pktinfo_scan (c :: l) res pk pk6 = pktinfo_scan l (af_of f) pk' pk6' /\
    out_param f (mk_pktinfo_result (af_of f) pk' pk6' []) =
    memcpy (out_param f (mk_pktinfo_result res pk pk6 []))
      (cmsg_data c) (sizeof_pktinfo_of f).
Proof.
  intros H. pose proof (pktinfo_of_exclusive f c H) as Hx.
  destruct f; cbn in H, Hx |- *.
  - rewrite H. eauto.
  - rewrite Hx, H. eauto.
Qed.

Lemma firstn_memcpy (dst src : list byte) (n : nat) :
  (n <= length src)%nat -> firstn n (memcpy dst src n) = firstn n src.
Proof.
  intros H. unfold memcpy.
  rewrite firstn_app, firstn_firstn, Nat.min_id.
  rewrite length_firstn, Nat.min_l by exact H.
  rewrite Nat.sub_diag. cbn. apply app_nil_r.
Qed.

(** A field that lies within the first [n] bytes of a buffer is read
    from those bytes alone. *)
Lemma field_firstn (off len n : nat) (buf : list byte) :
  (off + len <= n)%nat -> field off len (firstn n buf) = field off len buf.
Proof.
  intros H. unfold field.
  rewrite skipn_firstn_comm, firstn_firstn.
  f_equal. lia.
Qed.

(** C2.  When a control block holds two or more destination-info records
    of one address family, the out-parameter of that family ends up with
    the payload of the last of them in delivery order, field by field: a
    later record overwrites an earlier one.  The value returned is the
    family of the last destination-info record of the block, so it is
    that family unless a record of the other family follows. *)
Theorem pktinfo_get_last_record_wins
    (f : LocalAddressFamily) (h : msghdr) (pk : in_pktinfo)
    (pk6 : in6_pktinfo) (pre post : list cmsghdr) (r : cmsghdr) :
  0 < msg_controllen h ->
  msg_control h = pre ++ r :: post ->
  existsb (is_pktinfo_of f) pre = true ->
  is_pktinfo_of f r = true ->
  existsb (is_pktinfo_of f) post = false ->
  (sizeof_pktinfo_of f <= length (cmsg_data r))%nat ->
  firstn (sizeof_pktinfo_of f) (out_param f (pktinfo_get h pk pk6)) =
  firstn (sizeof_pktinfo_of f) (cmsg_data r) /\
  (forall off len,
     (off + len <= sizeof_pktinfo_of f)%nat ->
     field off len (out_param f (pktinfo_get h pk pk6)) =
     field off len (cmsg_data r)) /\
  pr_res (pktinfo_get h pk pk6) =
  (if existsb (is_pktinfo_of (other_family f)) post
   then af_of (other_family f) else af_of f).
Proof.
  intros Hlen Hctl _ Hr Hpost Hsize.
  assert (Hout : firstn (sizeof_pktinfo_of f)
                   (out_param f (pktinfo_get h pk pk6)) =
                 firstn (sizeof_pktinfo_of f) (cmsg_data r) /\
                 pr_res (pktinfo_get h pk pk6) =
                 (if existsb (is_pktinfo_of (other_family f)) post
                  then af_of (other_family f) else af_of f)).
  { unfold pktinfo_get. apply Z.gtb_lt in Hlen. rewrite Hlen, Hctl.
    rewrite pktinfo_scan_app. cbn zeta.
    set (s := pktinfo_scan pre (-1) pk pk6).
    destruct (pktinfo_scan_record f r post (pr_res s) (pr_pktinfo s)
                (pr_pktinfo6 s) Hr) as (pk' & pk6' & Escan & Eout).
    rewrite Escan. split.
    - transitivity (firstn (sizeof_pktinfo_of f)
                      (out_param f (pktinfo_scan post (af_of f) pk' pk6'))).
      { now destruct f. }
      rewrite (pktinfo_scan_untouched f post Hpost), Eout.
      now apply firstn_memcpy.
    - cbn [pr_res]. now apply pktinfo_scan_res_other. }
  destruct Hout as [Hfirst Hres].
  split; [exact Hfirst|]. split; [|exact Hres].
  intros off len Hfit.
  rewrite <- (field_firstn off len _ (out_param f _) Hfit).
  rewrite <- (field_firstn off len _ (cmsg_data r) Hfit).
  now rewrite Hfirst.
Qed.

Lemma pktinfo_get_last_record_wins_witness :
  let h := sample_hdr [cmsg_ip_pktinfo pktinfo_first;
                       cmsg_ip_pktinfo pktinfo_second] 64 in
  let r := pktinfo_get h (uninitialised sizeof_in_pktinfo)
             (uninitialised sizeof_in6_pktinfo) in
  ipi_addr pktinfo_first <> ipi_addr pktinfo_second /\
  ipi_addr (pr_pktinfo r) = ipi_addr pktinfo_second /\
  ipi_spec_dst (pr_pktinfo r) = ipi_spec_dst pktinfo_second /\
  ipi_ifindex (pr_pktinfo r) = ipi_ifindex pktinfo_second /\
  pr_res r = AF_INET.
Proof.
  cbv zeta. split; [discriminate|].
  destruct (pktinfo_get_last_record_wins IPv4
              (sample_hdr [cmsg_ip_pktinfo pktinfo_first;
                           cmsg_ip_pktinfo pktinfo_second] 64)
              (uninitialised sizeof_in_pktinfo)
              (uninitialised sizeof_in6_pktinfo)
              [cmsg_ip_pktinfo pktinfo_first] []
              (cmsg_ip_pktinfo pktinfo_second))
    as (_ & Hfield & Hres).
  - reflexivity.
  - reflexivity.
  - reflexivity.
  - reflexivity.
  - reflexivity.
  - vm_compute. apply le_n.
  - split; [|split; [|split]].
    + apply (Hfield 8%nat 4%nat). vm_compute. apply le_n.
    + apply (Hfield 4%nat 4%nat). vm_compute. lia.
    + apply (Hfield 0%nat 4%nat). vm_compute. lia.
    + exact Hres.
Defined.

(** Two IPv4 destination-info records with different addresses: the
    decoder answers with the second one's. *)
Example two_ipv4_records :
  destination_info
    (pktinfo_get
       (sample_hdr [cmsg_ip_pktinfo pktinfo_first;
                    cmsg_ip_pktinfo pktinfo_second] 64)
       (uninitialised sizeof_in_pktinfo) (uninitialised sizeof_in6_pktinfo)) =
  Dest_IPv4 pktinfo_second /\
  ipi_addr pktinfo_second = addr_10_0_0_9 /\
  ipi_addr pktinfo_first <> ipi_addr pktinfo_second.
Proof. repeat split. discriminate. Qed.

(** A record of the other family after them takes over the return
    value, while the IPv4 out-parameter keeps the second record. *)
Example two_ipv4_records_then_ipv6 :
  let r := pktinfo_get
             (sample_hdr [cmsg_ip_pktinfo pktinfo_first;
                          cmsg_ip_pktinfo pktinfo_second;
                          cmsg_ipv6_pktinfo pktinfo6_loopback] 104)
             (uninitialised sizeof_in_pktinfo)
             (uninitialised sizeof_in6_pktinfo) in
  pr_pktinfo r = pktinfo_second /\ pr_res r = AF_INET6.
Proof. split; reflexivity. Qed.

(** *** Unrecognised records *)

(** The loop only ever assigns the two family constants to [res]. *)
Lemma pktinfo_scan_res_cases (l : list cmsghdr) :
  forall res pk pk6,
    pr_res (pktinfo_scan l res pk pk6) = res \/
    pr_res (pktinfo_scan l res pk pk6) = AF_INET \/
    pr_res (pktinfo_scan l res pk pk6) = AF_INET6.
Proof.
  induction l as [|c l IH]; intros res pk pk6; [now left|].
  cbn [pktinfo_scan].
  destruct (is_ip_pktinfo c).
  { right. destruct (IH AF_INET (memcpy pk (cmsg_data c) sizeof_in_pktinfo)
                       pk6) as [H|[H|H]]; auto. }
  destruct (is_ipv6_pktinfo c).
  { right. destruct (IH AF_INET6 pk
                       (memcpy pk6 (cmsg_data c) sizeof_in6_pktinfo))
      as [H|[H|H]]; auto. }
  cbn [DEBUG pr_res]. apply IH.
Qed.

Lemma pktinfo_scan_res_recognized (l : list cmsghdr) :
  existsb recognized l = true ->
  forall res pk pk6,
    pr_res (pktinfo_scan l res pk pk6) = AF_INET \/
    pr_res (pktinfo_scan l res pk pk6) = AF_INET6.
Proof.
  induction l as [|c l IH]; intros H res pk pk6; [discriminate|].
  cbn [existsb] in H. unfold recognized at 1 in H. cbn [pktinfo_scan].
  destruct (is_ip_pktinfo c).
  { destruct (pktinfo_scan_res_cases l AF_INET
                (memcpy pk (cmsg_data c) sizeof_in_pktinfo) pk6)
      as [E|[E|E]]; auto. }
  destruct (is_ipv6_pktinfo c).
  { destruct (pktinfo_scan_res_cases l AF_INET6 pk
                (memcpy pk6 (cmsg_data c) sizeof_in6_pktinfo))
      as [E|[E|E]]; auto. }
  cbn [DEBUG pr_res]. apply IH. exact H.
Qed.

Lemma forallb_unrecognized (l : list cmsghdr) :
  forallb unrecognized l = negb (existsb recognized l).
Proof.
  induction l as [|c l IH]; [reflexivity|].
  cbn [forallb existsb]. rewrite IH, negb_orb. reflexivity.
Qed.

Lemma filter_recognized_nil (l : list cmsghdr) :
  forallb unrecognized l = true ->
  filter recognized l = [] /\ filter unrecognized l = l.
Proof.
  induction l as [|c l IH]; [auto|].
  cbn [forallb filter]. intros H. apply andb_true_iff in H.
  destruct H as [Hc Hl]. destruct (IH Hl) as [E1 E2].
  rewrite Hc, E2. unfold unrecognized in Hc.
  apply negb_true_iff in Hc. rewrite Hc. auto.
Qed.

Lemma destination_info_absent (r : pktinfo_result) :
  destination_info r = Absent <->
  pr_res r <> AF_INET /\ pr_res r <> AF_INET6.
Proof.
  unfold destination_info.
  destruct (pr_res r =? AF_INET) eqn:E4;
    [apply Z.eqb_eq in E4|apply Z.eqb_neq in E4].
  { split; [discriminate|]. intros [H _]. contradiction. }
  destruct (pr_res r =? AF_INET6) eqn:E6;
    [apply Z.eqb_eq in E6|apply Z.eqb_neq in E6].
  { split; [discriminate|]. intros [_ H]. contradiction. }
  split; auto.
Qed.

(** C3.  [pktinfo_get] is a total function: for every control block it
    yields one result, whose return value is [-1] (absent), [AF_INET] or
    [AF_INET6].  A record that is not a destination-info record is
    skipped: the result is the one obtained with such records removed
    from the block, each of them is reported on stderr with its length,
    level and type, in delivery order, and the scan goes on.  The result
    is Absent exactly when the block is empty or holds unrecognised
    records only. *)
Theorem pktinfo_get_skips_unknown_records
    (h : msghdr) (pk : in_pktinfo) (pk6 : in6_pktinfo) :
  let r := pktinfo_get h pk pk6 in
  let r' := pktinfo_get (with_control h (filter recognized (msg_control h)))
              pk pk6 in
  (pr_res r = -1 \/ pr_res r = AF_INET \/ pr_res r = AF_INET6) /\
  (pr_res r = pr_res r' /\ pr_pktinfo r = pr_pktinfo r' /\
   pr_pktinfo6 r = pr_pktinfo6 r') /\
  pr_stderr r =
    (if msg_controllen h >? 0
     then map unknown_diag (filter unrecognized (msg_control h)) else []) /\
  (destination_info r = Absent <->
   msg_controllen h <= 0 \/ forallb unrecognized (msg_control h) = true).
Proof.
  cbv zeta. unfold pktinfo_get, with_control. cbn [msg_controllen msg_control].
  destruct (msg_controllen h >? 0) eqn:Hlen.
  - apply Z.gtb_lt in Hlen. repeat split.
    + apply pktinfo_scan_res_cases.
    + apply pktinfo_scan_filter.
    + apply pktinfo_scan_filter.
    + apply pktinfo_scan_filter.
    + apply pktinfo_scan_stderr.
    + intros Habs. right. apply destination_info_absent in Habs.
      rewrite forallb_unrecognized.
      destruct (existsb recognized (msg_control h)) eqn:E; [|reflexivity].
      destruct (pktinfo_scan_res_recognized _ E (-1) pk pk6); tauto.
    + intros [Hneg|Hall]; [lia|].
      apply destination_info_absent.
      rewrite pktinfo_scan_res.
      destruct (filter_recognized_nil _ Hall) as [E _]. rewrite E.
      cbn. unfold AF_INET, AF_INET6. lia.
  - repeat split; auto.
    intros _. left.
    destruct (Z.gtb_spec (msg_controllen h) 0); [discriminate|lia].
Qed.

Lemma pktinfo_get_skips_unknown_records_witness :
  let h := sample_hdr [cmsg_timestamp] 32 in
  let r := pktinfo_get h (uninitialised sizeof_in_pktinfo)
             (uninitialised sizeof_in6_pktinfo) in
  forallb unrecognized (msg_control h) = true /\
  destination_info r = Absent /\
  pr_stderr r = [Stderr_unknown_ancillary 32 1 29].
Proof.
  cbv zeta.
  pose proof (pktinfo_get_skips_unknown_records
                (sample_hdr [cmsg_timestamp] 32)
                (uninitialised sizeof_in_pktinfo)
                (uninitialised sizeof_in6_pktinfo)) as H.
  cbv zeta in H. destruct H as (_ & _ & Herr & Habs).
  split; [reflexivity|]. split.
  - apply Habs. right. reflexivity.
  - rewrite Herr. reflexivity.
Defined.

(** An unrecognised record between two destination-info records: it is
    reported and the scan goes on to the record after it. *)
Example unknown_record_in_the_middle :
  let r := pktinfo_get
             (sample_hdr [cmsg_ip_pktinfo pktinfo_first; cmsg_timestamp;
                          cmsg_ip_pktinfo pktinfo_second] 96)
             (uninitialised sizeof_in_pktinfo)
             (uninitialised sizeof_in6_pktinfo) in
  destination_info r = Dest_IPv4 pktinfo_second /\
  pr_stderr r = [Stderr_unknown_ancillary 32 1 29].
Proof. split; reflexivity. Qed.

(** ** The service loop *)

(** *** Reading a trace *)

Lemma flat_map_none {A B : Type} (g : A -> list B) (l : list A) :
  Forall (fun a => g a = []) l -> flat_map g l = [].
Proof.
  induction 1 as [|a l Ha _ IH]; [reflexivity|].
  cbn. now rewrite Ha, IH.
Qed.

Lemma Forall_is_output_weaken (P : event -> Prop) (l : list event) :
  (forall e, is_output e = true -> P e) ->
  Forall (fun e => is_output e = true) l -> Forall P l.
Proof. intros HP H. eapply Forall_impl; [|exact H]. exact HP. Qed.

Lemma sends_output (l : list event) :
  Forall (fun e => is_output e = true) l -> sends l = [].
Proof.
  intros H. apply flat_map_none.
  apply (Forall_is_output_weaken _ l); [|exact H].
  intros [] E; try reflexivity; discriminate.
Qed.

Lemma received_output (l : list event) :
  Forall (fun e => is_output e = true) l -> received l = [].
Proof.
  intros H. apply flat_map_none.
  apply (Forall_is_output_weaken _ l); [|exact H].
  intros [] E; try reflexivity; discriminate.
Qed.

Lemma pktinfo_scan_output (l : list cmsghdr) :
  forall res pk pk6,
    Forall (fun e => is_output e = true) (pr_stderr (pktinfo_scan l res pk pk6)).
Proof.
  intros. rewrite pktinfo_scan_stderr.
  apply Forall_forall. intros e He. apply in_map_iff in He.
  destruct He as (c & <- & _). reflexivity.
Qed.

Lemma sends_app (a b : list event) : sends (a ++ b) = sends a ++ sends b.
Proof. apply flat_map_app. Qed.

Lemma received_app (a b : list event) :
  received (a ++ b) = received a ++ received b.
Proof. apply flat_map_app. Qed.

(** Reading the replies and the receives off an iteration's events. *)
Lemma sends_iteration (n : Z) (log t : list event) (h : msghdr)
    (p : list byte) :
  Forall (fun e => is_output e = true) log ->
  sends (Sys_recvmsg n :: log ++ Sys_sendmsg h p :: t) = (h, p) :: sends t.
Proof.
  intros Hlog.
  change (sends (Sys_recvmsg n :: log ++ Sys_sendmsg h p :: t))
    with (sends (log ++ Sys_sendmsg h p :: t)).
  rewrite sends_app, (sends_output _ Hlog). reflexivity.
Qed.

Lemma received_iteration (n : Z) (log t : list event) (h : msghdr)
    (p : list byte) :
  0 <= n ->
  Forall (fun e => is_output e = true) log ->
  received (Sys_recvmsg n :: log ++ Sys_sendmsg h p :: t) = n :: received t.
Proof.
  intros Hn Hlog.
  change (received (Sys_recvmsg n :: log ++ Sys_sendmsg h p :: t))
    with ((if n =? -1 then [] else [n]) ++
          received (log ++ Sys_sendmsg h p :: t)).
  replace (n =? -1) with false by (symmetry; apply Z.eqb_neq; lia).
  rewrite received_app, (received_output _ Hlog). reflexivity.
Qed.

(** *** The reply counter *)

Lemma wrap32_sub_l (a b : Z) : wrap32 (wrap32 a - b) = wrap32 (a - b).
Proof.
  unfold wrap32.
  replace ((a + 2 ^ 31) mod 2 ^ 32 - 2 ^ 31 - b + 2 ^ 31)
    with ((a + 2 ^ 31) mod 2 ^ 32 - b) by ring.
  rewrite Zminus_mod_idemp_l. f_equal. f_equal. ring.
Qed.

Lemma wrap32_zero_iff (z : Z) : wrap32 z = 0 <-> z mod 2 ^ 32 = 0.
Proof.
  unfold wrap32.
  change (2 ^ 31) with 2147483648. change (2 ^ 32) with 4294967296.
  Z.div_mod_to_equations. lia.
Qed.

Lemma wrap32_small (z : Z) : INT_MIN <= z <= INT_MAX -> wrap32 z = z.
Proof.
  unfold wrap32, INT_MIN, INT_MAX. intros H.
  rewrite Z.mod_small; lia.
Qed.

Lemma replies_until_zero_spec (c : Z) :
  1 <= replies_until_zero c <= 2 ^ 32 /\
  wrap32 (c - replies_until_zero c) = 0 /\
  forall k, 1 <= k < replies_until_zero c -> wrap32 (c - k) <> 0.
Proof.
  unfold replies_until_zero. split; [|split].
  - pose proof (Z.mod_pos_bound (c - 1) (2 ^ 32)). lia.
  - apply wrap32_zero_iff.
    change (2 ^ 32) with 4294967296. Z.div_mod_to_equations. lia.
  - intros k Hk E. apply wrap32_zero_iff in E. revert Hk E.
    change (2 ^ 32) with 4294967296. Z.div_mod_to_equations. lia.
Qed.

Lemma replies_until_zero_positive (c : Z) :
  1 <= c <= INT_MAX -> replies_until_zero c = c.
Proof.
  unfold replies_until_zero, INT_MAX. intros H.
  rewrite Z.mod_small; lia.
Qed.

Lemma replies_until_zero_nonpositive (c : Z) :
  INT_MIN <= c <= 0 -> replies_until_zero c = 2 ^ 32 + c.
Proof.
  unfold replies_until_zero, INT_MIN. intros H.
  change (2 ^ 31) with 2147483648 in H.
  change (2 ^ 32) with 4294967296. Z.div_mod_to_equations. lia.
Qed.

Lemma forallb_firstn {A : Type} (g : A -> bool) (n : nat) (l : list A) :
  forallb g l = true -> forallb g (firstn n l) = true.
Proof.
  intros H. rewrite <- (firstn_skipn n l), forallb_app in H.
  now apply andb_true_iff in H.
Qed.

(** *** Iterations *)

Section ServiceLoop.

(** The verbosity the process was started with; the loop never changes
    it. *)
Variable v : Z.

Lemma print_info_output (h : msghdr) :
  Forall (fun e => is_output e = true) (print_info v h).
Proof.
  unfold print_info.
  apply Forall_app; split; [|apply Forall_app; split].
  - unfold pktinfo_get. destruct (msg_controllen h >? 0).
    + apply pktinfo_scan_output.
    + constructor.
  - repeat match goal with |- context [if ?b then _ else _] => destruct b end;
      repeat constructor.
  - match goal with |- context [if ?b then _ else _] => destruct b end;
      repeat constructor.
Qed.

Lemma iteration_log_output (h : msghdr) (res : Z) :
  Forall (fun e => is_output e = true) (iteration_log v h res).
Proof.
  unfold iteration_log. destruct (v >? 0); [|constructor].
  apply Forall_app. split; [apply print_info_output|].
  repeat constructor.
Qed.

(** One iteration on a delivered datagram, spelled out. *)
Lemma service_loop_datagram (c : Z) (bufs : buffers)
    (p s : list byte) (ctl : list cmsghdr) (cl : Z)
    (later : list recv_result) :
  let n := Z.min (Z.of_nat (length p)) sizeof_frame in
  let hdr1 := mk_msghdr s (Z.of_nat (length s)) sizeof_frame ctl cl in
  let hdr2 := mk_msghdr s (Z.of_nat (length s)) n ctl cl in
  let frame1 := memcpy (frame bufs) p (Z.to_nat n) in
  let sent := Sys_sendmsg hdr2 (firstn (Z.to_nat n) p) in
  service_loop v c bufs (Recv_datagram p s ctl cl :: later) =
  if wrap32 (c - 1) =? 0 then
    (Sys_recvmsg n :: iteration_log v hdr1 n ++ [sent], Exited 0)
  else
    (Sys_recvmsg n :: iteration_log v hdr1 n ++ sent ::
       fst (service_loop v (wrap32 (c - 1)) (mk_buffers frame1 ctl s) later),
     snd (service_loop v (wrap32 (c - 1)) (mk_buffers frame1 ctl s) later)).
Proof.
  cbv zeta. cbn [service_loop recvmsg msg_iov_len].
  set (n := Z.min (Z.of_nat (length p)) sizeof_frame).
  assert (Hn : 0 <= n) by (unfold n, sizeof_frame; lia).
  assert (Hle : (Z.to_nat n <= length p)%nat) by (unfold n; lia).
  replace (n =? -1) with false by (symmetry; apply Z.eqb_neq; lia).
  cbn [msg_name msg_namelen msg_control msg_controllen].
  unfold sendmsg. cbn [msg_iov_len].
  rewrite (firstn_memcpy _ _ _ Hle).
  fold (iteration_log v (mk_msghdr s (Z.of_nat (length s)) sizeof_frame ctl cl) n).
  destruct (wrap32 (c - 1) =? 0); [reflexivity|].
  now destruct (service_loop v (wrap32 (c - 1)) _ later).
Qed.

(** As long as the counter does not come to zero, every delivered
    datagram is answered and the loop goes back to [recvmsg]. *)
Lemma service_loop_running (l : list recv_result) :
  forall c bufs,
    forallb is_datagram l = true ->
    (forall k, 1 <= k <= Z.of_nat (length l) -> wrap32 (c - k) <> 0) ->
    snd (service_loop v c bufs l) = Receiving /\
    length (sends (fst (service_loop v c bufs l))) = length l.
Proof.
  induction l as [|r l IH]; intros c bufs Hall Hcount; [split; reflexivity|].
  cbn [forallb] in Hall. apply andb_true_iff in Hall.
  destruct Hall as [Hr Hl].
  destruct r as [|p s ctl cl]; [discriminate|].
  rewrite service_loop_datagram. cbv zeta.
  assert (H1 : wrap32 (c - 1) <> 0).
  { apply Hcount. cbn [length]. lia. }
  apply Z.eqb_neq in H1. rewrite H1. cbn [fst snd].
  rewrite sends_iteration by apply iteration_log_output.
  destruct (IH (wrap32 (c - 1))
              (mk_buffers (memcpy (frame bufs) p
                 (Z.to_nat (Z.min (Z.of_nat (length p)) sizeof_frame))) ctl s)
              Hl) as [IHo IHn].
  { intros k Hk. rewrite wrap32_sub_l.
    replace (c - 1 - k) with (c - (k + 1)) by ring.
    apply Hcount. cbn [length]. lia. }
  split; [exact IHo|]. cbn [length]. now rewrite IHn.
Qed.

(** When the counter comes to zero at the last datagram of [l1], the
    loop ends there with status 0, whatever would have arrived next. *)
Lemma service_loop_stops (l1 : list recv_result) :
  forall l2 c bufs,
    l1 <> [] ->
    forallb is_datagram l1 = true ->
    (forall k, 1 <= k < Z.of_nat (length l1) -> wrap32 (c - k) <> 0) ->
    wrap32 (c - Z.of_nat (length l1)) = 0 ->
    service_loop v c bufs (l1 ++ l2) = service_loop v c bufs l1 /\
    snd (service_loop v c bufs l1) = Exited 0 /\
    length (sends (fst (service_loop v c bufs l1))) = length l1.
Proof.
  induction l1 as [|r l1 IH]; intros l2 c bufs Hne Hall Hcount Hzero;
    [contradiction|].
  cbn [forallb] in Hall. apply andb_true_iff in Hall.
  destruct Hall as [Hr Hl].
  destruct r as [|p s ctl cl]; [discriminate|].
  rewrite <- app_comm_cons, !service_loop_datagram. cbv zeta.
  destruct l1 as [|r' l1'].
  - cbn [length] in Hzero. change (Z.of_nat 1) with 1 in Hzero.
    apply Z.eqb_eq in Hzero. rewrite Hzero. cbn [fst snd].
    repeat split.
    rewrite sends_iteration by apply iteration_log_output. reflexivity.
  - assert (H1 : wrap32 (c - 1) <> 0).
    { apply Hcount. cbn [length]. lia. }
    apply Z.eqb_neq in H1. rewrite H1. cbn [fst snd].
    rewrite sends_iteration by apply iteration_log_output.
    destruct (IH l2 (wrap32 (c - 1))
                (mk_buffers (memcpy (frame bufs) p
                   (Z.to_nat (Z.min (Z.of_nat (length p)) sizeof_frame)))
                   ctl s))
      as (IHeq & IHo & IHn).
    + discriminate.
    + exact Hl.
    + intros k Hk. rewrite wrap32_sub_l.
      replace (c - 1 - k) with (c - (k + 1)) by ring.
      apply Hcount. cbn [length] in Hk |- *. lia.
    + rewrite wrap32_sub_l.
      replace (c - 1 - Z.of_nat (length (r' :: l1')))
        with (c - Z.of_nat (length (Recv_datagram p s ctl cl :: r' :: l1'))).
      * exact Hzero.
      * cbn [length]. lia.
    + rewrite IHeq. repeat split; [exact IHo|].
      cbn [length] in IHn |- *. now rewrite IHn.
Qed.

(** How a run of delivered datagrams ends, by the starting value of the
    counter. *)
Lemma service_loop_count (l : list recv_result) (c : Z) (bufs : buffers) :
  forallb is_datagram l = true ->
  (Z.of_nat (length l) < replies_until_zero c ->
   snd (service_loop v c bufs l) = Receiving /\
   length (sends (fst (service_loop v c bufs l))) = length l) /\
  (replies_until_zero c <= Z.of_nat (length l) ->
   service_loop v c bufs l =
   service_loop v c bufs (firstn (Z.to_nat (replies_until_zero c)) l) /\
   snd (service_loop v c bufs l) = Exited 0 /\
   Z.of_nat (length (sends (fst (service_loop v c bufs l)))) =
   replies_until_zero c).
Proof.
  intros Hall.
  destruct (replies_until_zero_spec c) as (HK & Hzero & Hbefore).
  set (K := replies_until_zero c) in *.
  split; intros Hlen.
  - apply service_loop_running; [exact Hall|].
    intros k Hk. apply Hbefore. lia.
  - assert (Hfl : length (firstn (Z.to_nat K) l) = Z.to_nat K).
    { rewrite length_firstn. lia. }
    destruct (service_loop_stops (firstn (Z.to_nat K) l)
                (skipn (Z.to_nat K) l) c bufs) as (Heq & Ho & Hn).
    + intros E. rewrite E in Hfl. cbn [length] in Hfl. lia.
    + now apply forallb_firstn.
    + intros k Hk. apply Hbefore. lia.
    + rewrite Hfl, Z2Nat.id by lia. exact Hzero.
    + rewrite firstn_skipn in Heq. rewrite Heq.
      repeat split; [exact Ho|]. rewrite Hn, Hfl. lia.
Qed.

(** Every call of [sendmsg] is the reply owed to the datagram it
    answers, and its length is what [recvmsg] returned for that
    datagram. *)
Lemma service_loop_sends (l : list recv_result) :
  forall c bufs,
    forallb fits_frame l = true ->
    sends (fst (service_loop v c bufs l)) =
    flat_map reply_to
      (firstn (length (sends (fst (service_loop v c bufs l)))) l) /\
    received (fst (service_loop v c bufs l)) =
    map (fun r => msg_iov_len (fst r)) (sends (fst (service_loop v c bufs l))).
Proof.
  induction l as [|r l IH]; intros c bufs Hfit; [split; reflexivity|].
  cbn [forallb] in Hfit. apply andb_true_iff in Hfit.
  destruct Hfit as [Hr Hl].
  destruct r as [|p s ctl cl]; [split; reflexivity|].
  unfold fits_frame in Hr. cbn [payload_of] in Hr. apply Z.leb_le in Hr.
  rewrite service_loop_datagram. cbv zeta.
  rewrite Z.min_l by exact Hr.
  rewrite Nat2Z.id, firstn_all.
  destruct (wrap32 (c - 1) =? 0); cbn [fst].
  - rewrite sends_iteration by apply iteration_log_output.
    rewrite received_iteration by (try apply iteration_log_output; lia).
    split; reflexivity.
  - rewrite sends_iteration by apply iteration_log_output.
    rewrite received_iteration by (try apply iteration_log_output; lia).
    destruct (IH (wrap32 (c - 1))
                (mk_buffers (memcpy (frame bufs) p (length p)) ctl s) Hl)
      as [IHe IHr].
    cbn [length firstn flat_map reply_to app map msg_iov_len fst]. split.
    + f_equal. exact IHe.
    + f_equal. exact IHr.
Qed.

End ServiceLoop.

(** ** [main] *)

Lemma main_bind_failed (argv : list option_arg) (w : world) :
  w_bind w = -1 ->
  main argv w =
  ([Sys_socket (addr_family (parse_options argv)) SOCK_DGRAM;
    Sys_bind (addr_family (parse_options argv))
      (listen_port (parse_options argv)) (-1);
    Perror "bind"%string], Exited 1).
Proof.
  intros H. unfold main. rewrite H. reflexivity.
Qed.

(** The events of [main] before the loop when [bind] succeeds. *)
Lemma main_bound (argv : list option_arg) (w : world) :
  w_bind w <> -1 ->
  let cfg := parse_options argv in
  let loop := service_loop (verbose cfg) (count cfg) (w_stack w)
                (w_incoming w) in
  main argv w =
  ([Sys_socket (addr_family cfg) SOCK_DGRAM;
    Sys_bind (addr_family cfg) (listen_port cfg) (w_bind w);
    Sys_setsockopt SOL_IP IP_PKTINFO (w_setsockopt_ip w);
    Sys_setsockopt IPPROTO_IPV6 IPV6_RECVPKTINFO (w_setsockopt_ipv6 w)]
   ++ fst loop, snd loop).
Proof.
  intros H. cbv zeta. unfold main. apply Z.eqb_neq in H. rewrite H.
  now destruct (service_loop _ _ _ _).
Qed.

Lemma main_sends (argv : list option_arg) (w : world) :
  let cfg := parse_options argv in
  sends (fst (main argv w)) =
  (if w_bind w =? -1 then []
   else sends (fst (service_loop (verbose cfg) (count cfg) (w_stack w)
                       (w_incoming w)))) /\
  received (fst (main argv w)) =
  (if w_bind w =? -1 then []
   else received (fst (service_loop (verbose cfg) (count cfg) (w_stack w)
                         (w_incoming w)))).
Proof.
  cbv zeta. destruct (w_bind w =? -1) eqn:E.
  - apply Z.eqb_eq in E. rewrite (main_bind_failed _ _ E). split; reflexivity.
  - apply Z.eqb_neq in E. rewrite (main_bound _ _ E). cbv zeta.
    split; reflexivity.
Qed.

(** C1.  In every run, when the payloads delivered by [recvmsg] are no
    longer than the receive buffer [frame], the k-th call of [sendmsg]
    is the reply owed to the k-th datagram received: it goes to the
    sender of that datagram, carries exactly its payload, and its length
    ([iov_len]) is the number of bytes of that payload, which is the
    value [recvmsg] returned for it, not the capacity of the buffer.
    Every successful receive is answered that way. *)
Theorem echo_fidelity (argv : list option_arg) (w : world) :
  forallb fits_frame (w_incoming w) = true ->
  sends (fst (main argv w)) =
  flat_map reply_to
    (firstn (length (sends (fst (main argv w)))) (w_incoming w)) /\
  received (fst (main argv w)) =
  map (fun r => msg_iov_len (fst r)) (sends (fst (main argv w))).
Proof.
  intros Hfit. destruct (main_sends argv w) as [He Hr]. cbv zeta in He, Hr.
  rewrite He, Hr. destruct (w_bind w =? -1); [split; reflexivity|].
  now apply service_loop_sends.
Qed.

Lemma echo_fidelity_witness :
  let w := sample_world
             [Recv_datagram hello sender6
                [cmsg_ipv6_pktinfo pktinfo6_loopback] 40] in
  forallb fits_frame (w_incoming w) = true /\
  sends (fst (main [] w)) =
  [(mk_msghdr sender6 28 5 [cmsg_ipv6_pktinfo pktinfo6_loopback] 40,
    hello)] /\
  received (fst (main [] w)) = [5].
Proof.
  cbv zeta. split; [reflexivity|].
  destruct (echo_fidelity []
              (sample_world
                 [Recv_datagram hello sender6
                    [cmsg_ipv6_pktinfo pktinfo6_loopback] 40]))
    as [He Hr]; [reflexivity|].
  rewrite Hr, He. split; reflexivity.
Defined.

(** C4.  A datagram with an empty payload makes [recvmsg] return 0, which
    is not the failure value [-1]: the iteration goes on as for any other
    datagram, a reply of length 0 with an empty payload is handed to
    [sendmsg] for the sender, and the loop then stops or continues
    according to the reply counter alone. *)
Theorem zero_length_datagram_echoed
    (v c : Z) (bufs : buffers) (s : list byte) (ctl : list cmsghdr) (cl : Z)
    (later : list recv_result) :
  exists log hdr,
    Forall (fun e => is_output e = true) log /\
    msg_iov_len hdr = 0 /\ msg_name hdr = s /\ msg_control hdr = ctl /\
    service_loop v c bufs (Recv_datagram [] s ctl cl :: later) =
    if wrap32 (c - 1) =? 0 then
      (Sys_recvmsg 0 :: log ++ [Sys_sendmsg hdr []], Exited 0)
    else
      (Sys_recvmsg 0 :: log ++ Sys_sendmsg hdr [] ::
         fst (service_loop v (wrap32 (c - 1))
                (mk_buffers (frame bufs) ctl s) later),
       snd (service_loop v (wrap32 (c - 1))
              (mk_buffers (frame bufs) ctl s) later)).
Proof.
  exists (iteration_log v
            (mk_msghdr s (Z.of_nat (length s)) sizeof_frame ctl cl) 0),
         (mk_msghdr s (Z.of_nat (length s)) 0 ctl cl).
  split; [apply iteration_log_output|].
  repeat (split; [reflexivity|]).
  rewrite service_loop_datagram. reflexivity.
Qed.

(** A run of the default configuration on an empty datagram followed by
    a non-empty one: both are answered. *)
Example zero_length_then_hello :
  let w := sample_world [Recv_datagram [] sender6 [] 0;
                         Recv_datagram hello sender6 [] 0] in
  echoes (fst (main [] w)) = [(0, []); (5, hello)] /\
  snd (main [] w) = Receiving.
Proof. split; reflexivity. Qed.

(** C5.  With a count [N] between 1 and [INT_MAX], once [N] datagrams
    have been received the loop has issued exactly [N] replies and
    [main] returns 0; what arrives after them has no effect on the
    run. *)
Theorem count_bounded_termination
    (argv : list option_arg) (w : world) (N : Z)
    (served further : list recv_result) :
  w_bind w <> -1 ->
  count (parse_options argv) = N ->
  1 <= N <= INT_MAX ->
  w_incoming w = served ++ further ->
  Z.of_nat (length served) = N ->
  forallb is_datagram served = true ->
  snd (main argv w) = Exited 0 /\
  Z.of_nat (length (sends (fst (main argv w)))) = N /\
  main argv w = main argv (with_incoming w served).
Proof.
  intros Hbind Hcount HN Hin Hlen Hall.
  pose proof (replies_until_zero_positive N HN) as HK.
  destruct (replies_until_zero_spec N) as (_ & Hzero & Hbefore).
  rewrite HK in Hzero, Hbefore.
  destruct (service_loop_stops (verbose (parse_options argv)) served further
              N (w_stack w))
    as (Heq & Ho & Hn).
  { intros E. rewrite E in Hlen. cbn [length] in Hlen. lia. }
  { exact Hall. }
  { intros k Hk. apply Hbefore. lia. }
  { rewrite Hlen. exact Hzero. }
  destruct (main_sends argv w) as [He _]. cbv zeta in He.
  rewrite (proj2 (Z.eqb_neq _ _) Hbind), Hcount, Hin, Heq in He.
  rewrite He, Hn.
  rewrite (main_bound argv w Hbind).
  rewrite (main_bound argv (with_incoming w served) Hbind). cbv zeta.
  cbn [with_incoming w_stack w_incoming w_bind w_setsockopt_ip
       w_setsockopt_ipv6 fst snd].
  rewrite Hin, Hcount, Heq. auto.
Qed.

Lemma count_bounded_termination_witness :
  let three := [Recv_datagram hello sender6 [] 0;
                Recv_datagram [] sender6 [] 0;
                Recv_datagram hello sender6 [] 0] in
  let more := [Recv_datagram hello sender6 [] 0; Recv_error] in
  let w := sample_world (three ++ more) in
  snd (main [Opt_c 3] w) = Exited 0 /\
  Z.of_nat (length (sends (fst (main [Opt_c 3] w)))) = 3 /\
  main [Opt_c 3] w = main [Opt_c 3] (with_incoming w three).
Proof.
  cbv zeta.
  apply (count_bounded_termination [Opt_c 3]
           (sample_world
              ([Recv_datagram hello sender6 [] 0;
                Recv_datagram [] sender6 [] 0;
                Recv_datagram hello sender6 [] 0] ++
               [Recv_datagram hello sender6 [] 0; Recv_error]))
           3
           [Recv_datagram hello sender6 [] 0;
            Recv_datagram [] sender6 [] 0;
            Recv_datagram hello sender6 [] 0]
           [Recv_datagram hello sender6 [] 0; Recv_error]).
  - simpl. lia.
  - reflexivity.
  - unfold INT_MAX. lia.
  - reflexivity.
  - reflexivity.
  - reflexivity.
Defined.

(** Without a [-c] option the counter keeps its initialiser. *)
Lemma count_without_option (argv : list option_arg) :
  (forall n, ~ In (Opt_c n) argv) ->
  forall cfg, count (fold_left set_option argv cfg) = count cfg.
Proof.
  induction argv as [|o argv IH]; intros Hno cfg; [reflexivity|].
  cbn [fold_left]. rewrite IH.
  - destruct o; try reflexivity.
    exfalso. apply (Hno n). now left.
  - intros n Hn. apply (Hno n). now right.
Qed.

Lemma forallb_repeat {A : Type} (g : A -> bool) (x : A) (n : nat) :
  g x = true -> forallb g (repeat x n) = true.
Proof.
  intros H. induction n as [|n IH]; [reflexivity|].
  cbn [repeat forallb]. now rewrite H, IH.
Qed.

(** C6, as the program has it.  Without a [-c] option the counter starts
    at 1000000.  While fewer than 1000000 datagrams have been received,
    each has been answered and the process is back in [recvmsg]; at the
    1000000th the loop stops and [main] returns 0 after exactly 1000000
    replies. *)
Theorem default_count_is_one_million (argv : list option_arg) (w : world) :
  w_bind w <> -1 ->
  (forall n, ~ In (Opt_c n) argv) ->
  forallb is_datagram (w_incoming w) = true ->
  count (parse_options argv) = 1000000 /\
  (Z.of_nat (length (w_incoming w)) < 1000000 ->
   snd (main argv w) = Receiving /\
   length (sends (fst (main argv w))) = length (w_incoming w)) /\
  (1000000 <= Z.of_nat (length (w_incoming w)) ->
   snd (main argv w) = Exited 0 /\
   Z.of_nat (length (sends (fst (main argv w)))) = 1000000).
Proof.
  intros Hbind Hno Hall.
  assert (Hc : count (parse_options argv) = 1000000).
  { unfold parse_options. now rewrite count_without_option. }
  destruct (main_sends argv w) as [He _]. cbv zeta in He.
  rewrite (proj2 (Z.eqb_neq _ _) Hbind), Hc in He.
  rewrite He, (main_bound argv w Hbind). cbv zeta. cbn [snd]. rewrite Hc.
  assert (HK : replies_until_zero 1000000 = 1000000).
  { apply replies_until_zero_positive. unfold INT_MAX. lia. }
  destruct (service_loop_count (verbose (parse_options argv)) (w_incoming w)
              1000000 (w_stack w) Hall) as [Hrun Hstop].
  rewrite HK in Hrun, Hstop.
  split; [reflexivity|]. split.
  - exact Hrun.
  - intros Hlen. destruct (Hstop Hlen) as (_ & Ho & Hn). now split.
Qed.

Lemma default_count_is_one_million_witness :
  let w := sample_world [Recv_datagram hello sender6 [] 0;
                         Recv_datagram [] sender6 [] 0] in
  count (parse_options []) = 1000000 /\
  snd (main [] w) = Receiving /\
  length (sends (fst (main [] w))) = 2%nat.
Proof.
  cbv zeta.
  destruct (default_count_is_one_million []
              (sample_world [Recv_datagram hello sender6 [] 0;
                             Recv_datagram [] sender6 [] 0]))
    as (Hc & Hrun & _).
  - simpl. lia.
  - intros n [].
  - reflexivity.
  - split; [exact Hc|]. apply Hrun. cbn. lia.
Defined.

(** The default configuration in a world where every call succeeds:
    the millionth datagram is the last one served. *)
Lemma default_run_stops (l : list recv_result) :
  forallb is_datagram l = true ->
  1000000 <= Z.of_nat (length l) ->
  snd (main [] (sample_world l)) = Exited 0 /\
  Z.of_nat (length (sends (fst (main [] (sample_world l))))) = 1000000.
Proof.
  intros Hall Hlen.
  assert (HK : replies_until_zero 1000000 = 1000000).
  { apply replies_until_zero_positive. unfold INT_MAX. lia. }
  assert (Hbind : w_bind (sample_world l) <> -1) by discriminate.
  destruct (service_loop_count 1 l 1000000 sample_stack Hall) as [_ Hstop].
  rewrite HK in Hstop. destruct (Hstop Hlen) as (_ & Ho & Hn).
  destruct (main_sends [] (sample_world l)) as [He _]. cbv zeta in He.
  rewrite He, (main_bound [] (sample_world l) Hbind). cbv zeta.
  split; [exact Ho|exact Hn].
Qed.

(** The claim of C6 that the default configuration never stops by count
    exhaustion fails: one million datagrams received without any failure
    bring the default counter to zero and [main] returns 0. *)
Lemma default_run_stops_after_a_million :
  let w := sample_world
             (repeat (Recv_datagram hello sender6 [] 0) (Z.to_nat 1000000)) in
  forallb is_datagram (w_incoming w) = true /\
  snd (main [] w) = Exited 0 /\
  Z.of_nat (length (sends (fst (main [] w)))) = 1000000.
Proof.
  assert (Hall : forallb is_datagram
                   (repeat (Recv_datagram hello sender6 [] 0)
                      (Z.to_nat 1000000)) = true).
  { apply forallb_repeat. reflexivity. }
  split; [exact Hall|].
  apply default_run_stops; [exact Hall|].
  rewrite repeat_length, Z2Nat.id; lia.
Qed.

(** C7.  When [bind] fails, [main] reports it with [perror("bind")] and
    returns 1 at once: the run consists of the [socket] call, the failed
    [bind] and the report, with no second [bind], no [setsockopt] and no
    [recvmsg] or [sendmsg]. *)
Theorem bind_failure_is_fatal (argv : list option_arg) (w : world) :
  w_bind w = -1 ->
  main argv w =
  ([Sys_socket (addr_family (parse_options argv)) SOCK_DGRAM;
    Sys_bind (addr_family (parse_options argv))
      (listen_port (parse_options argv)) (-1);
    Perror "bind"%string], Exited 1) /\
  diagnostics (fst (main argv w)) = [Perror "bind"%string] /\
  received (fst (main argv w)) = [] /\
  sends (fst (main argv w)) = [].
Proof.
  intros H. rewrite (main_bind_failed argv w H). repeat split.
Qed.

Lemma bind_failure_is_fatal_witness :
  let w := mk_world (-1) 0 0 sample_stack
             [Recv_datagram hello sender6 [] 0] in
  main [Opt_4; Opt_l 7] w =
  ([Sys_socket AF_INET SOCK_DGRAM; Sys_bind AF_INET 7 (-1);
    Perror "bind"%string], Exited 1) /\
  diagnostics (fst (main [Opt_4; Opt_l 7] w)) = [Perror "bind"%string] /\
  received (fst (main [Opt_4; Opt_l 7] w)) = [] /\
  sends (fst (main [Opt_4; Opt_l 7] w)) = [].
Proof.
  cbv zeta.
  apply (bind_failure_is_fatal [Opt_4; Opt_l 7]
           (mk_world (-1) 0 0 sample_stack
              [Recv_datagram hello sender6 [] 0])).
  reflexivity.
Defined.

(** The claim of C8 that a failing request for destination metadata is
    reported fails: with both [setsockopt] calls returning [-1] the
    program writes nothing to stderr and waits in [recvmsg]. *)
Lemma setsockopt_failure_not_reported :
  let w := mk_world 0 (-1) (-1) sample_stack [] in
  main [] w =
  ([Sys_socket AF_INET6 SOCK_DGRAM; Sys_bind AF_INET6 PORT 0;
    Sys_setsockopt SOL_IP IP_PKTINFO (-1);
    Sys_setsockopt IPPROTO_IPV6 IPV6_RECVPKTINFO (-1)], Receiving) /\
  diagnostics (fst (main [] w)) = [].
Proof. split; reflexivity. Qed.

(** C8, as the program has it.  The return values of the two
    [setsockopt] calls are not looked at: when [bind] has succeeded,
    whatever the two calls return, nothing is written between [bind] and
    the first [recvmsg], and the service loop runs with the configured
    verbosity and count on what arrives. *)
Theorem setsockopt_failure_not_fatal (argv : list option_arg) (w : world) :
  w_bind w <> -1 ->
  let cfg := parse_options argv in
  let loop := service_loop (verbose cfg) (count cfg) (w_stack w)
                (w_incoming w) in
  exists setup,
    main argv w = (setup ++ fst loop, snd loop) /\
    filter is_output setup = [] /\
    In (Sys_setsockopt SOL_IP IP_PKTINFO (w_setsockopt_ip w)) setup /\
    In (Sys_setsockopt IPPROTO_IPV6 IPV6_RECVPKTINFO (w_setsockopt_ipv6 w))
      setup.
Proof.
  intros H. cbv zeta.
  exists [Sys_socket (addr_family (parse_options argv)) SOCK_DGRAM;
          Sys_bind (addr_family (parse_options argv))
            (listen_port (parse_options argv)) (w_bind w);
          Sys_setsockopt SOL_IP IP_PKTINFO (w_setsockopt_ip w);
          Sys_setsockopt IPPROTO_IPV6 IPV6_RECVPKTINFO (w_setsockopt_ipv6 w)].
  split; [apply (main_bound argv w H)|].
  split; [reflexivity|].
  split; [right; right; left; reflexivity|].
  right; right; right; left; reflexivity.
Qed.

Lemma setsockopt_failure_not_fatal_witness :
  let w := mk_world 0 (-1) (-1) sample_stack
             [Recv_datagram hello sender6 [] 0] in
  exists setup,
    main [] w =
    (setup ++ fst (service_loop 1 1000000 sample_stack (w_incoming w)),
     snd (service_loop 1 1000000 sample_stack (w_incoming w))) /\
    filter is_output setup = [] /\
    In (Sys_setsockopt SOL_IP IP_PKTINFO (-1)) setup /\
    In (Sys_setsockopt IPPROTO_IPV6 IPV6_RECVPKTINFO (-1)) setup.
Proof.
  cbv zeta.
  apply (setsockopt_failure_not_fatal []
           (mk_world 0 (-1) (-1) sample_stack
              [Recv_datagram hello sender6 [] 0])).
  simpl. lia.
Defined.

(** In that world the datagram is still answered, and the only line on
    stderr comes from the decoder finding no destination record. *)
Example degraded_mode_still_echoes :
  let w := mk_world 0 (-1) (-1) sample_stack
             [Recv_datagram hello sender6 [] 0] in
  echoes (fst (main [] w)) = [(5, hello)] /\
  diagnostics (fst (main [] w)) = [Stderr_no_destination].
Proof. split; reflexivity. Qed.

(** The claim of C9 that a decoded family always equals the family the
    socket was bound with, and that a record of the other family is
    reported, fails: on the default IPv6 socket a datagram that comes
    with an IPv4 destination record is decoded as IPv4, the sender's
    [sockaddr_in6] is read through the [sockaddr_in] layout, and nothing
    is written to stderr. *)
Lemma ipv4_record_on_ipv6_socket :
  let control := [cmsg_ip_pktinfo pktinfo_first] in
  let h := sample_hdr control 32 in
  let r := pktinfo_get h (uninitialised sizeof_in_pktinfo)
             (uninitialised sizeof_in6_pktinfo) in
  let w := sample_world [Recv_datagram hello sender6 control 32] in
  addr_family (parse_options []) = AF_INET6 /\
  destination_info r = Dest_IPv4 pktinfo_first /\
  pr_res r <> addr_family (parse_options []) /\
  pr_stderr r = [] /\
  diagnostics (fst (main [] w)) = [] /\
  In (Stdout_contacted (Ntop AF_INET addr_10_0_0_5)
        (Ntop AF_INET (sin_addr sender6)) (Some (sin_port sender6)))
     (fst (main [] w)).
Proof.
  cbv zeta. repeat split.
  - discriminate.
  - cbn. right. right. right. right. right. left. reflexivity.
Qed.

Lemma parse_options_snoc (argv : list option_arg) (o : option_arg) :
  parse_options (argv ++ [o]) = set_option (parse_options argv) o.
Proof. unfold parse_options. now rewrite fold_left_app. Qed.

(** C9, as the program has it.  The decoder is not given the family of
    the socket.  The family it returns is that of the last
    destination-info record of the block, of either family, or [-1] when
    there is none; a line on stderr is written for the records that are
    of neither destination-info type and for no other record.  Apart
    from the [socket] and [bind] calls, a run is the same whether the
    socket was created with [-4] or with [-6]. *)
Theorem decoded_family_ignores_socket_family
    (h : msghdr) (pk : in_pktinfo) (pk6 : in6_pktinfo)
    (argv : list option_arg) (w : world) :
  pr_res (pktinfo_get h pk pk6) =
    (if msg_controllen h >? 0
     then last (map family_of_record (filter recognized (msg_control h))) (-1)
     else -1) /\
  (forall e, In e (pr_stderr (pktinfo_get h pk pk6)) ->
     exists c, In c (msg_control h) /\ recognized c = false /\
               e = unknown_diag c) /\
  skipn 2 (fst (main (argv ++ [Opt_4]) w)) =
  skipn 2 (fst (main (argv ++ [Opt_6]) w)) /\
  snd (main (argv ++ [Opt_4]) w) = snd (main (argv ++ [Opt_6]) w).
Proof.
  split; [|split].
  - unfold pktinfo_get. destruct (msg_controllen h >? 0); [|reflexivity].
    apply pktinfo_scan_res.
  - unfold pktinfo_get. destruct (msg_controllen h >? 0); [|intros e []].
    rewrite pktinfo_scan_stderr. intros e He.
    apply in_map_iff in He. destruct He as (c & <- & Hc).
    apply filter_In in Hc. destruct Hc as [Hin Hun].
    exists c. repeat split; [exact Hin|].
    unfold unrecognized in Hun. now apply negb_true_iff.
  - destruct (Z.eq_dec (w_bind w) (-1)) as [E|E].
    + rewrite !(main_bind_failed _ _ E). split; reflexivity.
    + rewrite !(main_bound _ _ E). cbv zeta.
      rewrite !parse_options_snoc. split; reflexivity.
Qed.

Lemma decoded_family_ignores_socket_family_witness :
  let control := [cmsg_timestamp; cmsg_ip_pktinfo pktinfo_first] in
  let r := pktinfo_get (sample_hdr control 64)
             (uninitialised sizeof_in_pktinfo)
             (uninitialised sizeof_in6_pktinfo) in
  pr_res r = AF_INET /\
  exists c, In c control /\ recognized c = false /\
            Stderr_unknown_ancillary 32 1 29 = unknown_diag c.
Proof.
  cbv zeta.
  destruct (decoded_family_ignores_socket_family
              (sample_hdr [cmsg_timestamp; cmsg_ip_pktinfo pktinfo_first] 64)
              (uninitialised sizeof_in_pktinfo)
              (uninitialised sizeof_in6_pktinfo)
              [] (sample_world [])) as (Hres & Herr & _).
  split.
  - rewrite Hres. reflexivity.
  - apply Herr. left. reflexivity.
Defined.

(** C10.  With a count that is zero or negative the first decrement does
    not give zero, so no datagram brings the loop to its end until the
    32-bit counter has gone all the way round: starting from [c <= 0],
    fewer than [2^32 + c] datagrams are all answered with the process
    back in [recvmsg], and the loop ends, with status 0, at datagram
    number [2^32 + c].  For [-c 0] that is after 4294967296 replies, not
    after none.  The decrement at [INT_MIN] is taken to wrap round. *)
Theorem nonpositive_count_wraps_around
    (argv : list option_arg) (w : world) (c : Z) :
  w_bind w <> -1 ->
  count (parse_options argv) = c ->
  INT_MIN <= c <= 0 ->
  forallb is_datagram (w_incoming w) = true ->
  (Z.of_nat (length (w_incoming w)) < 2 ^ 32 + c ->
   snd (main argv w) = Receiving /\
   length (sends (fst (main argv w))) = length (w_incoming w)) /\
  (2 ^ 32 + c <= Z.of_nat (length (w_incoming w)) ->
   snd (main argv w) = Exited 0 /\
   Z.of_nat (length (sends (fst (main argv w)))) = 2 ^ 32 + c).
Proof.
  intros Hbind Hcount Hc Hall.
  destruct (main_sends argv w) as [He _]. cbv zeta in He.
  rewrite (proj2 (Z.eqb_neq _ _) Hbind), Hcount in He.
  rewrite He, (main_bound argv w Hbind). cbv zeta. cbn [snd]. rewrite Hcount.
  destruct (service_loop_count (verbose (parse_options argv)) (w_incoming w)
              c (w_stack w) Hall) as [Hrun Hstop].
  rewrite (replies_until_zero_nonpositive c Hc) in Hrun, Hstop.
  split; [exact Hrun|].
  intros Hlen. destruct (Hstop Hlen) as (_ & Ho & Hn). now split.
Qed.

Lemma nonpositive_count_wraps_around_witness :
  let w := sample_world [Recv_datagram hello sender6 [] 0;
                         Recv_datagram [] sender6 [] 0] in
  snd (main [Opt_c 0] w) = Receiving /\
  length (sends (fst (main [Opt_c 0] w))) = 2%nat.
Proof.
  cbv zeta.
  apply (nonpositive_count_wraps_around [Opt_c 0]
           (sample_world [Recv_datagram hello sender6 [] 0;
                          Recv_datagram [] sender6 [] 0]) 0).
  - simpl. lia.
  - reflexivity.
  - unfold INT_MIN. lia.
  - reflexivity.
  - cbn. lia.
Defined.

(** * Further properties of the decoder *)

Lemma pktinfo_get_scans (h : msghdr) (pk : in_pktinfo) (pk6 : in6_pktinfo) :
  0 < msg_controllen h ->
  pktinfo_get h pk pk6 = pktinfo_scan (msg_control h) (-1) pk pk6.
Proof.
  intros H. unfold pktinfo_get. apply Z.gtb_lt in H. now rewrite H.
Qed.

Lemma pktinfo_get_empty (h : msghdr) (pk : in_pktinfo) (pk6 : in6_pktinfo) :
  msg_controllen h <= 0 ->
  pktinfo_get h pk pk6 = mk_pktinfo_result (-1) pk pk6 [].
Proof.
  intros H. unfold pktinfo_get.
  destruct (Z.gtb_spec (msg_controllen h) 0); [lia|reflexivity].
Qed.


(** The out-parameter of a family is a function of the records of that
    family and of the buffer passed for it, of nothing else. *)
Lemma pktinfo_scan_family_only (f : LocalAddressFamily) (l : list cmsghdr) :
  forall res res' pk pk6 pk' pk6',
    buffer_of f pk pk6 = buffer_of f pk' pk6' ->
    out_param f (pktinfo_scan l res pk pk6) =
    out_param f (pktinfo_scan (filter (is_pktinfo_of f) l) res' pk' pk6').
Proof.
  induction l as [|c l IH]; intros res res' pk pk6 pk' pk6' Hbuf.
  { destruct f; exact Hbuf. }
  cbn [pktinfo_scan filter].
  destruct (is_ip_pktinfo c) eqn:E4.
  { pose proof (ip_pktinfo_not_ipv6 c E4) as E6.
    destruct f; cbn [is_pktinfo_of] in *.
    - rewrite E4. cbn [pktinfo_scan]. rewrite E4.
      apply IH. cbn [buffer_of] in *. now rewrite Hbuf.
    - rewrite E6. apply IH. exact Hbuf. }
  destruct (is_ipv6_pktinfo c) eqn:E6.
  { destruct f; cbn [is_pktinfo_of] in *.
    - rewrite E4. apply IH. exact Hbuf.
    - rewrite E6. cbn [pktinfo_scan]. rewrite E4, E6.
      apply IH. cbn [buffer_of] in *. now rewrite Hbuf. }
  cbn [DEBUG].
  replace (is_pktinfo_of f c) with false by (destruct f; cbn; congruence).
  transitivity (out_param f (pktinfo_scan l res pk pk6)).
  { now destruct f. }
  apply IH. exact Hbuf.
Qed.

(** X1.  A block without any record of a family, and an empty block,
    leave the buffer passed for that family exactly as it was: the
    caller's struct is written only when a record of its family is
    found. *)
Theorem pktinfo_get_leaves_buffer_alone
    (f : LocalAddressFamily) (h : msghdr) (pk : in_pktinfo)
    (pk6 : in6_pktinfo) :
  msg_controllen h <= 0 \/
  existsb (is_pktinfo_of f) (msg_control h) = false ->
  out_param f (pktinfo_get h pk pk6) = buffer_of f pk pk6.
Proof.
  intros [Hempty|Hnone].
  - rewrite (pktinfo_get_empty h pk pk6 Hempty). now destruct f.
  - destruct (Z.gtb_spec (msg_controllen h) 0) as [Hpos|Hneg].
    + rewrite (pktinfo_get_scans h pk pk6 Hpos).
      rewrite (pktinfo_scan_untouched f _ Hnone). now destruct f.
    + rewrite (pktinfo_get_empty h pk pk6 Hneg). now destruct f.
Qed.

Lemma pktinfo_get_leaves_buffer_alone_witness :
  out_param IPv4
    (pktinfo_get
       (sample_hdr [cmsg_timestamp; cmsg_ipv6_pktinfo pktinfo6_loopback] 72)
       pktinfo_first (uninitialised sizeof_in6_pktinfo)) =
  pktinfo_first.
Proof.
  apply (pktinfo_get_leaves_buffer_alone IPv4
           (sample_hdr [cmsg_timestamp;
                        cmsg_ipv6_pktinfo pktinfo6_loopback] 72)
           pktinfo_first (uninitialised sizeof_in6_pktinfo)).
  right. reflexivity.
Defined.

(** X2.  The two families are decoded independently of each other: what
    ends up in the out-parameter of a family is what the records of that
    family alone would have left there, whatever the other records of
    the block and whatever buffer is passed for the other family. *)
Theorem pktinfo_get_families_independent
    (h : msghdr) (pk pk' : in_pktinfo) (pk6 pk6' : in6_pktinfo) :
  pr_pktinfo (pktinfo_get h pk pk6) =
  pr_pktinfo
    (pktinfo_get (with_control h (filter is_ip_pktinfo (msg_control h)))
       pk pk6') /\
  pr_pktinfo6 (pktinfo_get h pk pk6) =
  pr_pktinfo6
    (pktinfo_get (with_control h (filter is_ipv6_pktinfo (msg_control h)))
       pk' pk6).
Proof.
  unfold pktinfo_get, with_control. cbn [msg_controllen msg_control].
  destruct (msg_controllen h >? 0); [|split; reflexivity].
  split.
  - apply (pktinfo_scan_family_only IPv4). reflexivity.
  - apply (pktinfo_scan_family_only IPv6). reflexivity.
Qed.


Lemma filter_recognized_empty (l : list cmsghdr) :
  existsb recognized l = false <-> filter recognized l = [].
Proof.
  induction l as [|c l IH]; [split; reflexivity|].
  cbn [existsb filter]. destruct (recognized c); cbn [orb].
  - split; discriminate.
  - exact IH.
Qed.

Lemma not_recognized_either (f : LocalAddressFamily) (l : list cmsghdr) :
  existsb recognized l = false ->
  existsb (is_pktinfo_of f) l = false /\
  existsb (is_pktinfo_of (other_family f)) l = false.
Proof.
  induction l as [|c l IH]; intros H; [split; reflexivity|].
  cbn [existsb] in *. apply orb_false_iff in H. destruct H as [Hc Hl].
  unfold recognized in Hc. apply orb_false_iff in Hc. destruct Hc as [E4 E6].
  destruct (IH Hl) as [IH1 IH2]. rewrite IH1, IH2.
  destruct f; cbn [is_pktinfo_of other_family]; rewrite E4, E6; auto.
Qed.



Lemma length_memcpy (dst src : list byte) (n : nat) :
  (n <= length src)%nat -> (n <= length dst)%nat ->
  length (memcpy dst src n) = length dst.
Proof.
  intros Hs Hd. unfold memcpy.
  rewrite length_app, length_firstn, length_skipn. lia.
Qed.

(** Blocks of whole records keep the size of the structs. *)
Lemma pktinfo_scan_size (f : LocalAddressFamily) (l : list cmsghdr) :
  forallb whole_record l = true ->
  forall res pk pk6,
    (sizeof_pktinfo_of f <= length (buffer_of f pk pk6))%nat ->
    length (out_param f (pktinfo_scan l res pk pk6)) =
    length (buffer_of f pk pk6).
Proof.
  induction l as [|c l IH]; intros Hwhole res pk pk6 Hbuf.
  { now destruct f. }
  cbn [forallb] in Hwhole. apply andb_true_iff in Hwhole.
  destruct Hwhole as [Hc Hl]. unfold whole_record in Hc.
  cbn [pktinfo_scan].
  destruct (is_ip_pktinfo c) eqn:E4.
  { apply andb_true_iff in Hc. destruct Hc as [Hc _].
    apply Nat.leb_le in Hc. rewrite (IH Hl).
    - destruct f; cbn [buffer_of] in *; [|reflexivity].
      now apply length_memcpy.
    - destruct f; cbn [buffer_of] in *; [|exact Hbuf].
      rewrite length_memcpy; assumption. }
  destruct (is_ipv6_pktinfo c) eqn:E6.
  { apply andb_true_iff in Hc. destruct Hc as [_ Hc].
    apply Nat.leb_le in Hc. rewrite (IH Hl).
    - destruct f; cbn [buffer_of] in *; [reflexivity|].
      now apply length_memcpy.
    - destruct f; cbn [buffer_of] in *; [exact Hbuf|].
      rewrite length_memcpy; assumption. }
  cbn [DEBUG].
  transitivity (length (out_param f (pktinfo_scan l res pk pk6))).
  { now destruct f. }
  now apply IH.
Qed.

(** X4.  In a block of whole records whose last destination-info record
    is [r], decoded into structs of the right size, the result read by
    the caller is the variant of [r]'s family holding exactly the struct
    carried by [r]: no byte of an earlier record or of the buffer
    survives in it. *)
Theorem pktinfo_get_decodes_last_record
    (f : LocalAddressFamily) (h : msghdr) (pk : in_pktinfo)
    (pk6 : in6_pktinfo) (pre post : list cmsghdr) (r : cmsghdr) :
  0 < msg_controllen h ->
  msg_control h = pre ++ r :: post ->
  is_pktinfo_of f r = true ->
  existsb recognized post = false ->
  forallb whole_record (msg_control h) = true ->
  length (buffer_of f pk pk6) = sizeof_pktinfo_of f ->
  destination_info (pktinfo_get h pk pk6) =
  dest_of f (firstn (sizeof_pktinfo_of f) (cmsg_data r)).
Proof.
  intros Hlen Hctl Hr Hpost Hwhole Hbuf.
  rewrite (pktinfo_get_scans h pk pk6 Hlen), Hctl.
  rewrite Hctl, forallb_app in Hwhole. apply andb_true_iff in Hwhole.
  destruct Hwhole as [Hpre Hrest]. cbn [forallb] in Hrest.
  apply andb_true_iff in Hrest. destruct Hrest as [Hwr _].
  destruct (not_recognized_either f post Hpost) as [Hf Ho].
  rewrite pktinfo_scan_app. cbv zeta.
  set (s := pktinfo_scan pre (-1) pk pk6).
  assert (Hs : length (out_param f s) = sizeof_pktinfo_of f).
  { unfold s. rewrite (pktinfo_scan_size f pre Hpre); [exact Hbuf|lia]. }
  assert (Hdata : (sizeof_pktinfo_of f <= length (cmsg_data r))%nat).
  { unfold whole_record in Hwr. apply andb_true_iff in Hwr.
    destruct f; cbn [is_pktinfo_of sizeof_pktinfo_of] in *;
      rewrite Hr in Hwr; destruct Hwr as [H4 H6];
      now apply Nat.leb_le. }
  destruct (pktinfo_scan_record f r post (pr_res s) (pr_pktinfo s)
              (pr_pktinfo6 s) Hr) as (pk' & pk6' & Escan & Eout).
  rewrite Escan.
  set (t := pktinfo_scan post (af_of f) pk' pk6').
  assert (Hres : pr_res t = af_of f).
  { unfold t. rewrite (pktinfo_scan_res_other f post Hf). now rewrite Ho. }
  assert (Hout : out_param f t =
                 firstn (sizeof_pktinfo_of f) (cmsg_data r)).
  { unfold t. rewrite (pktinfo_scan_untouched f post Hf), Eout.
    unfold memcpy. replace (out_param f _) with (out_param f s)
      by now destruct f.
    rewrite skipn_all2 by lia. apply app_nil_r. }
  unfold destination_info. cbn [pr_res pr_pktinfo pr_pktinfo6].
  change (pr_res {| pr_res := pr_res t; pr_pktinfo := pr_pktinfo t;
                    pr_pktinfo6 := pr_pktinfo6 t;
                    pr_stderr := pr_stderr s ++ pr_stderr t |})
    with (pr_res t).
  rewrite Hres. destruct f; cbn [af_of dest_of out_param] in *.
  - cbn. now rewrite Hout.
  - cbn. now rewrite Hout.
Qed.

Lemma pktinfo_get_decodes_last_record_witness :
  destination_info
    (pktinfo_get
       (sample_hdr [cmsg_ipv6_pktinfo pktinfo6_loopback; cmsg_timestamp;
                    cmsg_ip_pktinfo pktinfo_first; cmsg_timestamp] 136)
       (uninitialised sizeof_in_pktinfo)
       (uninitialised sizeof_in6_pktinfo)) =
  Dest_IPv4 (firstn sizeof_in_pktinfo pktinfo_first).
Proof.
  apply (pktinfo_get_decodes_last_record IPv4
           (sample_hdr [cmsg_ipv6_pktinfo pktinfo6_loopback; cmsg_timestamp;
                        cmsg_ip_pktinfo pktinfo_first; cmsg_timestamp] 136)
           (uninitialised sizeof_in_pktinfo)
           (uninitialised sizeof_in6_pktinfo)
           [cmsg_ipv6_pktinfo pktinfo6_loopback; cmsg_timestamp]
           [cmsg_timestamp] (cmsg_ip_pktinfo pktinfo_first)).
  - simpl. lia.
  - reflexivity.
  - reflexivity.
  - reflexivity.
  - reflexivity.
  - reflexivity.
Defined.

(** The last record of a family in a block, seen from the result. *)
Lemma pktinfo_get_last_of_family
    (f : LocalAddressFamily) (h : msghdr) (pk : in_pktinfo)
    (pk6 : in6_pktinfo) (pre post : list cmsghdr) (r : cmsghdr) :
  0 < msg_controllen h ->
  msg_control h = pre ++ r :: post ->
  is_pktinfo_of f r = true ->
  existsb recognized post = false ->
  (sizeof_pktinfo_of f <= length (cmsg_data r))%nat ->
  pr_res (pktinfo_get h pk pk6) = af_of f /\
  firstn (sizeof_pktinfo_of f) (out_param f (pktinfo_get h pk pk6)) =
  firstn (sizeof_pktinfo_of f) (cmsg_data r).
Proof.
  intros Hlen Hctl Hr Hpost Hsize.
  destruct (not_recognized_either f post Hpost) as [Hf Ho].
  rewrite (pktinfo_get_scans h pk pk6 Hlen), Hctl.
  rewrite pktinfo_scan_app. cbv zeta.
  set (s := pktinfo_scan pre (-1) pk pk6).
  destruct (pktinfo_scan_record f r post (pr_res s) (pr_pktinfo s)
              (pr_pktinfo6 s) Hr) as (pk' & pk6' & Escan & Eout).
  rewrite Escan. split.
  - cbn [pr_res]. rewrite (pktinfo_scan_res_other f post Hf). now rewrite Ho.
  - transitivity (firstn (sizeof_pktinfo_of f)
                    (out_param f (pktinfo_scan post (af_of f) pk' pk6'))).
    { now destruct f. }
    rewrite (pktinfo_scan_untouched f post Hf), Eout.
    now apply firstn_memcpy.
Qed.

Lemma field_of_prefix (off len n : nat) (a b : list byte) :
  (off + len <= n)%nat -> firstn n a = firstn n b ->
  field off len a = field off len b.
Proof.
  intros Hfit E.
  rewrite <- (field_firstn off len n a Hfit), E.
  now apply field_firstn.
Qed.

Lemma pktinfo_get_stderr (h : msghdr) (pk : in_pktinfo) (pk6 : in6_pktinfo) :
  pr_stderr (pktinfo_get h pk pk6) =
  if msg_controllen h >? 0
  then map unknown_diag (filter unrecognized (msg_control h)) else [].
Proof.
  unfold pktinfo_get. destruct (msg_controllen h >? 0); [|reflexivity].
  apply pktinfo_scan_stderr.
Qed.

(** * Further properties of [print_info] *)

(** X5.  When the control block is empty or holds no destination-info
    record, [print_info] writes the line for each record it does not
    know, then "No destination IP data found" on stderr, and then still
    prints the contact line, from address buffers and a port that
    nothing has written; the extra IPv4 lines are not printed. *)
Theorem print_info_without_destination (v : Z) (h : msghdr) :
  msg_controllen h <= 0 \/ existsb recognized (msg_control h) = false ->
  print_info v h =
  (if msg_controllen h >? 0 then map unknown_diag (msg_control h) else []) ++
  [Stderr_no_destination; Stdout_contacted Unwritten Unwritten None].
Proof.
  intros H. unfold print_info. cbv zeta.
  rewrite pktinfo_get_stderr.
  assert (Hres : pr_res (pktinfo_get h (uninitialised sizeof_in_pktinfo)
                           (uninitialised sizeof_in6_pktinfo)) = -1).
  { destruct (Z.gtb_spec (msg_controllen h) 0) as [Hpos|Hneg].
    - destruct H as [H|H]; [lia|].
      rewrite (pktinfo_get_scans _ _ _ Hpos), pktinfo_scan_res.
      apply filter_recognized_empty in H. now rewrite H.
    - now rewrite (pktinfo_get_empty _ _ _ Hneg). }
  rewrite Hres.
  change (-1 =? AF_INET) with false. change (-1 =? AF_INET6) with false.
  rewrite andb_false_r, app_nil_r.
  destruct (msg_controllen h >? 0) eqn:Hlen; [|reflexivity].
  destruct H as [H|H]; [apply Z.gtb_lt in Hlen; lia|].
  assert (Hall : forallb unrecognized (msg_control h) = true).
  { rewrite forallb_unrecognized, H. reflexivity. }
  destruct (filter_recognized_nil _ Hall) as [_ E]. now rewrite E.
Qed.

Lemma print_info_without_destination_witness :
  print_info 1 (sample_hdr [cmsg_timestamp] 32) =
  [Stderr_unknown_ancillary 32 1 29; Stderr_no_destination;
   Stdout_contacted Unwritten Unwritten None].
Proof.
  apply (print_info_without_destination 1 (sample_hdr [cmsg_timestamp] 32)).
  right. reflexivity.
Defined.

(** X6.  When the last destination-info record of the block is an IPv4
    one, the destination printed is its [ipi_spec_dst] field, and the
    sender and port are read from [msg_name] through the [sockaddr_in]
    layout; the header destination [ipi_addr] and the interface index of
    the same record are printed as extra lines unless [verbose] is 0.
    Lines for unknown records come first. *)
Theorem print_info_ipv4
    (v : Z) (h : msghdr) (pre post : list cmsghdr) (r : cmsghdr) :
  0 < msg_controllen h ->
  msg_control h = pre ++ r :: post ->
  is_ip_pktinfo r = true ->
  existsb recognized post = false ->
  (sizeof_in_pktinfo <= length (cmsg_data r))%nat ->
  print_info v h =
  map unknown_diag (filter unrecognized (msg_control h)) ++
  [Stdout_contacted (Ntop AF_INET (ipi_spec_dst (cmsg_data r)))
     (Ntop AF_INET (sin_addr (msg_name h))) (Some (sin_port (msg_name h)))] ++
  (if v =? 0 then []
   else [Stdout_extra (ipi_addr (cmsg_data r)) (ipi_ifindex (cmsg_data r))]).
Proof.
  intros Hlen Hctl Hr Hpost Hsize.
  destruct (pktinfo_get_last_of_family IPv4 h
              (uninitialised sizeof_in_pktinfo)
              (uninitialised sizeof_in6_pktinfo) pre post r
              Hlen Hctl Hr Hpost Hsize) as [Hres Hfirst].
  cbn [af_of out_param sizeof_pktinfo_of] in Hres, Hfirst.
  unfold print_info. cbv zeta.
  rewrite pktinfo_get_stderr, Hres.
  apply Z.gtb_lt in Hlen. rewrite Hlen.
  change (AF_INET =? AF_INET) with true. cbv iota.
  unfold ipi_spec_dst, ipi_addr, ipi_ifindex.
  assert (H44 : (4 + 4 <= sizeof_in_pktinfo)%nat)
    by (unfold sizeof_in_pktinfo; lia).
  assert (H84 : (8 + 4 <= sizeof_in_pktinfo)%nat)
    by (unfold sizeof_in_pktinfo; lia).
  assert (H04 : (0 + 4 <= sizeof_in_pktinfo)%nat)
    by (unfold sizeof_in_pktinfo; lia).
  rewrite (field_of_prefix 4 4 _ _ _ H44 Hfirst).
  rewrite (field_of_prefix 8 4 _ _ _ H84 Hfirst).
  rewrite (field_of_prefix 0 4 _ _ _ H04 Hfirst).
  cbn [DEBUG andb]. rewrite andb_true_r.
  now destruct (v =? 0).
Qed.

Lemma print_info_ipv4_witness :
  print_info 1
    (sample_hdr [cmsg_timestamp; cmsg_ip_pktinfo pktinfo_first] 64) =
  [Stderr_unknown_ancillary 32 1 29;
   Stdout_contacted (Ntop AF_INET addr_10_0_0_5)
     (Ntop AF_INET (sin_addr sender6)) (Some (sin_port sender6));
   Stdout_extra addr_10_0_0_5 ifindex_2].
Proof.
  apply (print_info_ipv4 1
           (sample_hdr [cmsg_timestamp; cmsg_ip_pktinfo pktinfo_first] 64)
           [cmsg_timestamp] [] (cmsg_ip_pktinfo pktinfo_first)).
  - simpl. lia.
  - reflexivity.
  - reflexivity.
  - reflexivity.
  - vm_compute. apply le_n.
Defined.

(** X7.  When the last destination-info record of the block is an IPv6
    one, the destination printed is its [ipi6_addr] field, the sender
    and port are read from [msg_name] through the [sockaddr_in6]
    layout, and no extra line is printed whatever [verbose] is: the
    interface index of an IPv6 record is never shown. *)
Theorem print_info_ipv6
    (v : Z) (h : msghdr) (pre post : list cmsghdr) (r : cmsghdr) :
  0 < msg_controllen h ->
  msg_control h = pre ++ r :: post ->
  is_ipv6_pktinfo r = true ->
  existsb recognized post = false ->
  (sizeof_in6_pktinfo <= length (cmsg_data r))%nat ->
  print_info v h =
  map unknown_diag (filter unrecognized (msg_control h)) ++
  [Stdout_contacted (Ntop AF_INET6 (ipi6_addr (cmsg_data r)))
     (Ntop AF_INET6 (sin6_addr (msg_name h)))
     (Some (sin6_port (msg_name h)))].
Proof.
  intros Hlen Hctl Hr Hpost Hsize.
  destruct (pktinfo_get_last_of_family IPv6 h
              (uninitialised sizeof_in_pktinfo)
              (uninitialised sizeof_in6_pktinfo) pre post r
              Hlen Hctl Hr Hpost Hsize) as [Hres Hfirst].
  cbn [af_of out_param sizeof_pktinfo_of] in Hres, Hfirst.
  unfold print_info. cbv zeta.
  rewrite pktinfo_get_stderr, Hres.
  apply Z.gtb_lt in Hlen. rewrite Hlen.
  change (AF_INET6 =? AF_INET) with false.
  change (AF_INET6 =? AF_INET6) with true. cbv iota.
  unfold ipi6_addr.
  assert (H016 : (0 + 16 <= sizeof_in6_pktinfo)%nat)
    by (unfold sizeof_in6_pktinfo; lia).
  rewrite (field_of_prefix 0 16 _ _ _ H016 Hfirst).
  rewrite andb_false_r, app_nil_r. reflexivity.
Qed.

Lemma print_info_ipv6_witness :
  print_info 1
    (sample_hdr [cmsg_ipv6_pktinfo pktinfo6_loopback; cmsg_timestamp] 72) =
  [Stderr_unknown_ancillary 32 1 29;
   Stdout_contacted (Ntop AF_INET6 (ipi6_addr pktinfo6_loopback))
     (Ntop AF_INET6 (sin6_addr sender6)) (Some (sin6_port sender6))].
Proof.
  apply (print_info_ipv6 1
           (sample_hdr [cmsg_ipv6_pktinfo pktinfo6_loopback;
                        cmsg_timestamp] 72)
           [] [cmsg_timestamp] (cmsg_ipv6_pktinfo pktinfo6_loopback)).
  - simpl. lia.
  - reflexivity.
  - reflexivity.
  - reflexivity.
  - vm_compute. lia.
Defined.

(** * Further properties of the service loop and of [main] *)





(** A failing [recvmsg] after datagrams that have not used up the
    counter. *)
Lemma service_loop_recv_error (v : Z) (l1 l2 : list recv_result) :
  forall c bufs,
    forallb is_datagram l1 = true ->
    (forall k, 1 <= k <= Z.of_nat (length l1) -> wrap32 (c - k) <> 0) ->
    service_loop v c bufs (l1 ++ Recv_error :: l2) =
    (fst (service_loop v c bufs l1) ++ [Sys_recvmsg (-1)], Exited 0).
Proof.
  induction l1 as [|r l1 IH]; intros c bufs Hall Hcount; [reflexivity|].
  cbn [forallb] in Hall. apply andb_true_iff in Hall.
  destruct Hall as [Hr Hl].
  destruct r as [|p s ctl cl]; [discriminate|].
  rewrite <- app_comm_cons, !service_loop_datagram. cbv zeta.
  assert (H1 : wrap32 (c - 1) <> 0).
  { apply Hcount. cbn [length]. lia. }
  apply Z.eqb_neq in H1. rewrite H1.
  rewrite IH.
  - cbn [fst snd]. rewrite <- !app_comm_cons, <- app_assoc. reflexivity.
  - exact Hl.
  - intros k Hk. rewrite wrap32_sub_l.
    replace (c - 1 - k) with (c - (k + 1)) by ring.
    apply Hcount. cbn [length]. lia.
Qed.

(** X9.  A failing [recvmsg] ends the run with exit status 0 and without
    a word about it: when it comes after datagrams that have not used up
    the reply count, the run is the run on those datagrams followed by
    the failed call alone, and nothing that would arrive later is
    read. *)
Theorem receive_failure_ends_run
    (argv : list option_arg) (w : world) (l1 l2 : list recv_result) :
  w_bind w <> -1 ->
  forallb is_datagram l1 = true ->
  Z.of_nat (length l1) < replies_until_zero (count (parse_options argv)) ->
  main argv (with_incoming w (l1 ++ Recv_error :: l2)) =
  (fst (main argv (with_incoming w l1)) ++ [Sys_recvmsg (-1)], Exited 0).
Proof.
  intros Hbind Hall Hlen.
  rewrite (main_bound argv (with_incoming w (l1 ++ Recv_error :: l2)) Hbind).
  rewrite (main_bound argv (with_incoming w l1) Hbind). cbv zeta.
  cbn [with_incoming w_bind w_setsockopt_ip w_setsockopt_ipv6 w_stack
       w_incoming fst snd].
  destruct (replies_until_zero_spec (count (parse_options argv)))
    as (_ & _ & Hbefore).
  rewrite service_loop_recv_error.
  - cbn [fst snd]. now rewrite <- !app_comm_cons, <- app_assoc.
  - exact Hall.
  - intros k Hk. apply Hbefore. lia.
Qed.

Lemma receive_failure_ends_run_witness :
  let w := sample_world [] in
  let l1 := [Recv_datagram hello sender6 [] 0] in
  let l2 := [Recv_datagram hello sender6 [] 0] in
  snd (main [] (with_incoming w (l1 ++ Recv_error :: l2))) = Exited 0 /\
  echoes (fst (main [] (with_incoming w (l1 ++ Recv_error :: l2)))) =
  [(5, hello)].
Proof.
  cbv zeta.
  rewrite (receive_failure_ends_run [] (sample_world [])
             [Recv_datagram hello sender6 [] 0]
             [Recv_datagram hello sender6 [] 0]).
  - split; reflexivity.
  - simpl. lia.
  - reflexivity.
  - vm_compute. reflexivity.
Defined.

Lemma service_loop_exit_status (v : Z) (l : list recv_result) :
  forall c bufs s, snd (service_loop v c bufs l) = Exited s -> s = 0.
Proof.
  induction l as [|r l IH]; intros c bufs s H; [discriminate|].
  destruct r as [|p sd ctl cl].
  - cbn in H. congruence.
  - rewrite service_loop_datagram in H. cbv zeta in H.
    destruct (wrap32 (c - 1) =? 0); cbn [snd] in H.
    + congruence.
    + eapply IH. exact H.
Qed.

(** X10.  The exit status tells a failed [bind] from everything else:
    [main] returns 1 exactly when [bind] failed, and 0 in every other
    run that ends, whether the reply count ran out or [recvmsg]
    failed. *)
Theorem exit_status_tells_bind_failure
    (argv : list option_arg) (w : world) (s : Z) :
  snd (main argv w) = Exited s ->
  (w_bind w = -1 /\ s = 1) \/ (w_bind w <> -1 /\ s = 0).
Proof.
  intros H. destruct (Z.eq_dec (w_bind w) (-1)) as [E|E].
  - left. rewrite (main_bind_failed argv w E) in H. cbn in H.
    split; congruence.
  - right. rewrite (main_bound argv w E) in H. cbv zeta in H. cbn [snd] in H.
    split; [exact E|]. eapply service_loop_exit_status. exact H.
Qed.

Lemma exit_status_tells_bind_failure_witness :
  (w_bind (sample_world [Recv_error]) = -1 /\ 0 = 1) \/
  (w_bind (sample_world [Recv_error]) <> -1 /\ 0 = 0).
Proof.
  apply (exit_status_tells_bind_failure [] (sample_world [Recv_error]) 0).
  reflexivity.
Defined.

Lemma firstn_min_frame (p : list byte) :
  firstn (Z.to_nat (Z.min (Z.of_nat (length p)) sizeof_frame)) p =
  firstn (Z.to_nat sizeof_frame) p.
Proof.
  destruct (Z.le_gt_cases (Z.of_nat (length p)) sizeof_frame) as [H|H].
  - rewrite Z.min_l by exact H.
    rewrite !firstn_all2; [reflexivity|lia|lia].
  - rewrite Z.min_r by lia. reflexivity.
Qed.

Lemma service_loop_sends_truncated (v : Z) (l : list recv_result) :
  forall c bufs,
    sends (fst (service_loop v c bufs l)) =
    flat_map reply_truncated
      (firstn (length (sends (fst (service_loop v c bufs l)))) l) /\
    received (fst (service_loop v c bufs l)) =
    map (fun r => msg_iov_len (fst r)) (sends (fst (service_loop v c bufs l))).
Proof.
  induction l as [|r l IH]; intros c bufs; [split; reflexivity|].
  destruct r as [|p s ctl cl]; [split; reflexivity|].
  rewrite service_loop_datagram. cbv zeta.
  rewrite firstn_min_frame.
  assert (Hn : 0 <= Z.min (Z.of_nat (length p)) sizeof_frame)
    by (unfold sizeof_frame; lia).
  destruct (wrap32 (c - 1) =? 0); cbn [fst].
  - rewrite sends_iteration by apply iteration_log_output.
    rewrite received_iteration by (try apply iteration_log_output; exact Hn).
    split; reflexivity.
  - rewrite sends_iteration by apply iteration_log_output.
    rewrite received_iteration by (try apply iteration_log_output; exact Hn).
    destruct (IH (wrap32 (c - 1))
                (mk_buffers
                   (memcpy (frame bufs) p
                      (Z.to_nat (Z.min (Z.of_nat (length p)) sizeof_frame)))
                   ctl s)) as [IHe IHr].
    cbn [length firstn flat_map reply_truncated app map msg_iov_len fst].
    split.
    + f_equal. exact IHe.
    + f_equal. exact IHr.
Qed.

Lemma reply_truncated_bounded (l : list recv_result) :
  Forall (fun r => Z.of_nat (length (snd r)) = msg_iov_len (fst r) /\
                   msg_iov_len (fst r) <= sizeof_frame)
    (flat_map reply_truncated l).
Proof.
  induction l as [|r l IH]; [constructor|].
  destruct r as [|p s ctl cl]; [exact IH|].
  cbn [flat_map reply_truncated app]. constructor; [|exact IH].
  cbn [fst snd msg_iov_len]. rewrite length_firstn.
  unfold sizeof_frame. lia.
Qed.

(** X11.  Whatever the sizes of the datagrams, the k-th reply answers
    the k-th datagram with the first 8192 bytes of its payload at most:
    a longer datagram is echoed cut to the size of [frame].  The length
    of every reply is the number of bytes it carries, is what [recvmsg]
    returned, and never exceeds 8192. *)
Theorem replies_are_truncated_echoes (argv : list option_arg) (w : world) :
  sends (fst (main argv w)) =
  flat_map reply_truncated
    (firstn (length (sends (fst (main argv w)))) (w_incoming w)) /\
  received (fst (main argv w)) =
  map (fun r => msg_iov_len (fst r)) (sends (fst (main argv w))) /\
  Forall (fun r => Z.of_nat (length (snd r)) = msg_iov_len (fst r) /\
                   msg_iov_len (fst r) <= sizeof_frame)
    (sends (fst (main argv w))).
Proof.
  assert (H : sends (fst (main argv w)) =
              flat_map reply_truncated
                (firstn (length (sends (fst (main argv w)))) (w_incoming w)) /\
              received (fst (main argv w)) =
              map (fun r => msg_iov_len (fst r)) (sends (fst (main argv w)))).
  { destruct (main_sends argv w) as [He Hr]. cbv zeta in He, Hr.
    rewrite He, Hr. destruct (w_bind w =? -1); [split; reflexivity|].
    apply service_loop_sends_truncated. }
  destruct H as [Hs Hr]. split; [exact Hs|]. split; [exact Hr|].
  rewrite Hs. apply reply_truncated_bounded.
Qed.

(** A datagram of 8193 bytes is answered with its first 8192. *)
Example oversized_datagram :
  let big := repeat x61 (Z.to_nat sizeof_frame) ++ [x62] in
  echoes (fst (main [Opt_v 0] (sample_world [Recv_datagram big sender6 [] 0])))
  = [(sizeof_frame, repeat x61 (Z.to_nat sizeof_frame))].
Proof. vm_compute. reflexivity. Qed.

Lemma replies_until_zero_step (c : Z) :
  wrap32 (c - 1) <> 0 ->
  replies_until_zero (wrap32 (c - 1)) = replies_until_zero c - 1.
Proof.
  intros H.
  assert (H' : (c - 1) mod 2 ^ 32 <> 0).
  { intros E. apply H. now apply wrap32_zero_iff. }
  revert H'. unfold replies_until_zero, wrap32.
  change (2 ^ 31) with 2147483648. change (2 ^ 32) with 4294967296.
  Z.div_mod_to_equations. lia.
Qed.

Lemma service_loop_replies_bounded (v : Z) (l : list recv_result) :
  forall c bufs,
    Z.of_nat (length (sends (fst (service_loop v c bufs l)))) <=
    replies_until_zero c /\
    (length (sends (fst (service_loop v c bufs l))) <= length l)%nat.
Proof.
  induction l as [|r l IH]; intros c bufs.
  { destruct (replies_until_zero_spec c) as (HK & _). cbn. lia. }
  destruct (replies_until_zero_spec c) as (HK & _).
  destruct r as [|p s ctl cl]; [cbn; lia|].
  rewrite service_loop_datagram. cbv zeta.
  destruct (wrap32 (c - 1) =? 0) eqn:E; cbn [fst].
  - rewrite sends_iteration by apply iteration_log_output. cbn. lia.
  - rewrite sends_iteration by apply iteration_log_output.
    apply Z.eqb_neq in E.
    destruct (IH (wrap32 (c - 1))
                (mk_buffers
                   (memcpy (frame bufs) p
                      (Z.to_nat (Z.min (Z.of_nat (length p)) sizeof_frame)))
                   ctl s)) as [IHk IHl].
    rewrite (replies_until_zero_step c E) in IHk.
    cbn [length]. lia.
Qed.

(** X12.  A run never sends more replies than there were datagrams, nor
    more than the number of decrements that bring the reply counter to
    zero; for a count [N] between 1 and [INT_MAX] that is at most [N]
    replies, and never more than [2^32] for any count. *)
Theorem replies_bounded (argv : list option_arg) (w : world) :
  Z.of_nat (length (sends (fst (main argv w)))) <=
  replies_until_zero (count (parse_options argv)) /\
  (length (sends (fst (main argv w))) <= length (w_incoming w))%nat /\
  replies_until_zero (count (parse_options argv)) <= 2 ^ 32 /\
  (1 <= count (parse_options argv) <= INT_MAX ->
   replies_until_zero (count (parse_options argv)) =
   count (parse_options argv)).
Proof.
  destruct (replies_until_zero_spec (count (parse_options argv)))
    as (HK & _).
  destruct (main_sends argv w) as [He _]. cbv zeta in He. rewrite He.
  split; [|split; [|split]].
  - destruct (w_bind w =? -1); [cbn; lia|].
    apply service_loop_replies_bounded.
  - destruct (w_bind w =? -1); [cbn; lia|].
    apply service_loop_replies_bounded.
  - lia.
  - apply replies_until_zero_positive.
Qed.

Lemma replies_bounded_witness :
  replies_until_zero (count (parse_options [Opt_c 2])) = 2 /\
  Z.of_nat
    (length
       (sends
          (fst (main [Opt_c 2]
                  (sample_world [Recv_datagram hello sender6 [] 0;
                                 Recv_datagram hello sender6 [] 0;
                                 Recv_datagram hello sender6 [] 0]))))) <= 2.
Proof.
  destruct (replies_bounded [Opt_c 2]
              (sample_world [Recv_datagram hello sender6 [] 0;
                             Recv_datagram hello sender6 [] 0;
                             Recv_datagram hello sender6 [] 0]))
    as (Hle & _ & _ & Hpos).
  assert (HN : replies_until_zero (count (parse_options [Opt_c 2])) = 2).
  { rewrite Hpos; [reflexivity|]. vm_compute. split; discriminate. }
  split; [exact HN|]. rewrite <- HN. exact Hle.
Defined.

Lemma service_loop_extends (v : Z) (l1 l2 : list recv_result) :
  forall c bufs,
    exists t',
      fst (service_loop v c bufs (l1 ++ l2)) =
      fst (service_loop v c bufs l1) ++ t' /\
      (snd (service_loop v c bufs l1) <> Receiving ->
       service_loop v c bufs (l1 ++ l2) = service_loop v c bufs l1).
Proof.
  induction l1 as [|r l1 IH]; intros c bufs.
  { exists (fst (service_loop v c bufs l2)). split; [reflexivity|].
    intros H. now contradiction H. }
  destruct r as [|p s ctl cl].
  { exists []. split; [reflexivity|]. reflexivity. }
  rewrite <- app_comm_cons, !service_loop_datagram. cbv zeta.
  destruct (wrap32 (c - 1) =? 0).
  { exists []. cbn [fst]. rewrite app_nil_r. auto. }
  destruct (IH (wrap32 (c - 1))
              (mk_buffers
                 (memcpy (frame bufs) p
                    (Z.to_nat (Z.min (Z.of_nat (length p)) sizeof_frame)))
                 ctl s)) as (t' & Ht & Hstop).
  exists t'. cbn [fst snd]. split.
  - rewrite Ht. rewrite <- !app_comm_cons, <- app_assoc.
    rewrite <- app_comm_cons. reflexivity.
  - intros H. rewrite (Hstop H). reflexivity.
Qed.

(** X13.  What a run has done is never undone by what arrives later: the
    run on more input starts with the run on less, and once [main] has
    returned on the shorter input, further input changes nothing at
    all. *)
Theorem run_extends
    (argv : list option_arg) (w : world) (l1 l2 : list recv_result) :
  exists t',
    fst (main argv (with_incoming w (l1 ++ l2))) =
    fst (main argv (with_incoming w l1)) ++ t' /\
    (snd (main argv (with_incoming w l1)) <> Receiving ->
     main argv (with_incoming w (l1 ++ l2)) =
     main argv (with_incoming w l1)).
Proof.
  destruct (Z.eq_dec (w_bind w) (-1)) as [E|E].
  - exists []. rewrite !(main_bind_failed argv (with_incoming w _) E).
    split; [now rewrite app_nil_r|reflexivity].
  - rewrite (main_bound argv (with_incoming w (l1 ++ l2)) E).
    rewrite (main_bound argv (with_incoming w l1) E). cbv zeta.
    cbn [with_incoming w_bind w_setsockopt_ip w_setsockopt_ipv6 w_stack
         w_incoming fst snd].
    destruct (service_loop_extends (verbose (parse_options argv)) l1 l2
                (count (parse_options argv)) (w_stack w))
      as (t' & Ht & Hstop).
    exists t'. split.
    + rewrite Ht. now rewrite <- !app_comm_cons, <- app_assoc.
    + intros H. now rewrite (Hstop H).
Qed.

(** * Further properties of the command line and of the bound address *)

Lemma set_option_invariant (cfg : config) (o : option_arg) :
  (addr_family cfg = AF_INET \/ addr_family cfg = AF_INET6) /\
  0 <= listen_port cfg < 65536 ->
  (addr_family (set_option cfg o) = AF_INET \/
   addr_family (set_option cfg o) = AF_INET6) /\
  0 <= listen_port (set_option cfg o) < 65536.
Proof.
  intros [Hf Hp]. destruct o; cbn [set_option addr_family listen_port]; auto.
  split; [exact Hf|]. unfold to_uint16. apply Z.mod_pos_bound. lia.
Qed.

Lemma parse_options_invariant (argv : list option_arg) :
  (addr_family (parse_options argv) = AF_INET \/
   addr_family (parse_options argv) = AF_INET6) /\
  0 <= listen_port (parse_options argv) < 65536.
Proof.
  unfold parse_options.
  assert (H : (addr_family default_config = AF_INET \/
               addr_family default_config = AF_INET6) /\
              0 <= listen_port default_config < 65536).
  { split; [now right|]. cbn. unfold PORT. lia. }
  revert H. generalize default_config.
  induction argv as [|o argv IH]; intros cfg H; [exact H|].
  cbn [fold_left]. apply IH. now apply set_option_invariant.
Qed.

(** X14.  Whatever the command line, a run starts by creating a datagram
    socket for [AF_INET] or [AF_INET6] and binding it, for the same
    family, to a port that is a 16-bit number: the argument of [-l] is
    reduced modulo 65536. *)
Theorem socket_family_and_port_in_range (argv : list option_arg) (w : world) :
  exists rest,
    fst (main argv w) =
    Sys_socket (addr_family (parse_options argv)) SOCK_DGRAM ::
    Sys_bind (addr_family (parse_options argv))
      (listen_port (parse_options argv)) (w_bind w) :: rest /\
    (addr_family (parse_options argv) = AF_INET \/
     addr_family (parse_options argv) = AF_INET6) /\
    0 <= listen_port (parse_options argv) < 65536.
Proof.
  destruct (parse_options_invariant argv) as [Hf Hp].
  destruct (Z.eq_dec (w_bind w) (-1)) as [E|E].
  - exists [Perror "bind"%string].
    rewrite (main_bind_failed argv w E), E. auto.
  - eexists. rewrite (main_bound argv w E). cbv zeta. cbn [fst app].
    split; [reflexivity|]. auto.
Qed.

(** A port given as 70000 is bound as 4464. *)
Example port_wraps :
  listen_port (parse_options [Opt_l 70000]) = 4464.
Proof. reflexivity. Qed.

Lemma set_option_other (o a : option_arg) (cfg : config) :
  same_setting o a = false ->
  setting_holds o cfg -> setting_holds o (set_option cfg a).
Proof.
  destruct o, a; cbn; intros Hs H; try discriminate; exact H.
Qed.

Lemma set_option_holds (o : option_arg) (cfg : config) :
  setting_holds o (set_option cfg o).
Proof. destruct o; cbn; auto. Qed.

Lemma fold_set_option_keeps (o : option_arg) (rest : list option_arg) :
  existsb (same_setting o) rest = false ->
  forall cfg, setting_holds o cfg ->
              setting_holds o (fold_left set_option rest cfg).
Proof.
  induction rest as [|a rest IH]; intros Hno cfg H; [exact H|].
  cbn [existsb] in Hno. apply orb_false_iff in Hno. destruct Hno as [Ha Hr].
  cbn [fold_left]. apply (IH Hr). now apply set_option_other.
Qed.

(** X15.  Options are applied in the order given and the last one for a
    variable wins: after an option that is not followed by another one
    for the same variable ([-4] and [-6] both set the family), the
    variable has the value of that option, whatever came before it and
    whatever other options follow. *)
Theorem last_option_wins
    (argv rest : list option_arg) (o : option_arg) :
  existsb (same_setting o) rest = false ->
  setting_holds o (parse_options (argv ++ o :: rest)).
Proof.
  intros Hno. unfold parse_options. rewrite fold_left_app.
  cbn [fold_left]. apply (fold_set_option_keeps o rest Hno).
  apply set_option_holds.
Qed.

Lemma last_option_wins_witness :
  count (parse_options ([Opt_c 5; Opt_4] ++ Opt_c 7 :: [Opt_6; Opt_v 0])) = 7.
Proof.
  apply (last_option_wins [Opt_c 5; Opt_4] [Opt_6; Opt_v 0] (Opt_c 7)).
  reflexivity.
Defined.

Lemma to_N_byte_of_Z (z : Z) : Z.of_N (Byte.to_N (byte_of_Z z)) = z mod 256.
Proof.
  pose proof (Z.mod_pos_bound z 256 ltac:(lia)) as Hb.
  unfold byte_of_Z. destruct (Byte.of_N (Z.to_N (z mod 256))) as [b|] eqn:E.
  - apply Byte.to_of_N in E. rewrite E. apply Z2N.id. lia.
  - apply Byte.of_N_None_iff in E. lia.
Qed.

Lemma network_short_htons (port : Z) :
  0 <= port < 65536 -> network_short (htons_bytes port) = port.
Proof.
  intros H. unfold htons_bytes, network_short.
  rewrite !to_N_byte_of_Z.
  rewrite (Z.mod_small (port / 256)).
  - rewrite Z.mul_comm. symmetry. apply Z.div_mod. lia.
  - split; [apply Z.div_pos; lia|].
    apply Z.div_lt_upper_bound; lia.
Qed.

Section BindAddress.

(** The two bytes of a host-order short. *)
Variable host_short : Z -> list byte.
Hypothesis host_short_size : forall z, length (host_short z) = 2%nat.

Lemma bind_address_layout (cfg : config) :
  addr_family cfg = AF_INET \/ addr_family cfg = AF_INET6 ->
  bind_address host_short cfg =
  host_short (addr_family cfg) ++ htons_bytes (listen_port cfg) ++
  repeat x00 124.
Proof.
  intros Hf. unfold bind_address. cbv zeta.
  assert (E : (if addr_family cfg =? AF_INET
               then store 2 (htons_bytes (listen_port cfg))
                      (store 0 (host_short (addr_family cfg))
                         (repeat x00 (Z.to_nat sizeof_sockaddr_storage)))
               else if addr_family cfg =? AF_INET6
                    then store 2 (htons_bytes (listen_port cfg))
                           (store 0 (host_short (addr_family cfg))
                              (repeat x00 (Z.to_nat sizeof_sockaddr_storage)))
                    else repeat x00 (Z.to_nat sizeof_sockaddr_storage)) =
              store 2 (htons_bytes (listen_port cfg))
                (store 0 (host_short (addr_family cfg))
                   (repeat x00 (Z.to_nat sizeof_sockaddr_storage)))).
  { destruct Hf as [Hf|Hf]; rewrite Hf; reflexivity. }
  rewrite E.
  pose proof (host_short_size (addr_family cfg)) as Hs.
  destruct (host_short (addr_family cfg)) as [|b1 [|b2 [|b3 fb]]];
    try discriminate.
  reflexivity.
Qed.

(** X16.  The address handed to [bind] is the wildcard address of the
    configured family on the configured port: it is 128 bytes long,
    begins with the family as a host-order short, its port field read
    back in network byte order is [listen_port], and every byte after
    the port is zero, which makes the IPv4 address 0.0.0.0 and the IPv6
    address, flow label and scope all zero. *)
Theorem bind_address_is_wildcard (argv : list option_arg) :
  let a := bind_address host_short (parse_options argv) in
  length a = 128%nat /\
  field 0 2 a = host_short (addr_family (parse_options argv)) /\
  network_short (sin_port a) = listen_port (parse_options argv) /\
  network_short (sin6_port a) = listen_port (parse_options argv) /\
  skipn 4 a = repeat x00 124 /\
  sin_addr a = repeat x00 4 /\
  sin6_addr a = repeat x00 16.
Proof.
  cbv zeta.
  destruct (parse_options_invariant argv) as [Hf Hp].
  rewrite (bind_address_layout _ Hf).
  pose proof (network_short_htons _ Hp) as Hport.
  pose proof (host_short_size (addr_family (parse_options argv))) as Hs.
  destruct (host_short (addr_family (parse_options argv)))
    as [|b1 [|b2 [|b3 fb]]]; try discriminate.
  repeat split; try reflexivity; exact Hport.
Qed.

End BindAddress.

Lemma bind_address_is_wildcard_witness :
  let a := bind_address little_endian_short (parse_options [Opt_4; Opt_l 7]) in
  a = [x02; x00; x00; x07] ++ repeat x00 124 /\
  network_short (sin_port a) = 7 /\
  sin_addr a = repeat x00 4.
Proof.
  cbv zeta.
  destruct (bind_address_is_wildcard little_endian_short
              (fun z => eq_refl) [Opt_4; Opt_l 7])
    as (_ & _ & Hport & _ & _ & Haddr & _).
  split; [reflexivity|]. split; [exact Hport|exact Haddr].
Defined.

(** * Further properties of the log *)

Lemma echo_sizes_app (a b : list event) :
  echo_sizes (a ++ b) = echo_sizes a ++ echo_sizes b.
Proof. apply flat_map_app. Qed.

Lemma echo_sizes_print_info (v : Z) (h : msghdr) :
  echo_sizes (print_info v h) = [].
Proof.
  unfold print_info. cbv zeta.
  rewrite !echo_sizes_app, pktinfo_get_stderr.
  assert (E : echo_sizes
                (if msg_controllen h >? 0
                 then map unknown_diag (filter unrecognized (msg_control h))
                 else []) = []).
  { destruct (msg_controllen h >? 0); [|reflexivity].
    apply flat_map_none. apply Forall_forall. intros e He.
    apply in_map_iff in He. destruct He as (c & <- & _). reflexivity. }
  rewrite E.
  repeat match goal with |- context [if ?b then _ else _] => destruct b end;
    reflexivity.
Qed.

Lemma service_loop_echo_sizes (v : Z) (l : list recv_result) :
  0 < v ->
  forall c bufs,
    echo_sizes (fst (service_loop v c bufs l)) =
    received (fst (service_loop v c bufs l)).
Proof.
  intros Hv. induction l as [|r l IH]; intros c bufs; [reflexivity|].
  destruct r as [|p s ctl cl]; [reflexivity|].
  rewrite service_loop_datagram. cbv zeta.
  set (n := Z.min (Z.of_nat (length p)) sizeof_frame).
  assert (Hn : 0 <= n) by (unfold n, sizeof_frame; lia).
  assert (Hlog : forall t,
             echo_sizes (Sys_recvmsg n ::
                         iteration_log v
                           (mk_msghdr s (Z.of_nat (length s)) sizeof_frame
                              ctl cl) n ++ t) = n :: echo_sizes t).
  { intros t. unfold iteration_log. apply Z.gtb_lt in Hv. rewrite Hv.
    change (echo_sizes (Sys_recvmsg n :: ?x)) with (echo_sizes x).
    rewrite !echo_sizes_app, echo_sizes_print_info. reflexivity. }
  destruct (wrap32 (c - 1) =? 0); cbn [fst].
  - rewrite Hlog.
    rewrite received_iteration by (try apply iteration_log_output; exact Hn).
    reflexivity.
  - rewrite Hlog.
    rewrite received_iteration by (try apply iteration_log_output; exact Hn).
    change (echo_sizes (Sys_sendmsg ?h ?q :: ?t)) with (echo_sizes t).
    f_equal. apply IH.
Qed.

(** X17.  With [verbose] above 0 every datagram received is announced by
    one "Echo back packet" line, and the size it gives is the number of
    bytes [recvmsg] returned, which is also the length of the reply that
    follows; a failed [recvmsg] is announced by none. *)
Theorem echo_lines_give_received_sizes (argv : list option_arg) (w : world) :
  0 < verbose (parse_options argv) ->
  echo_sizes (fst (main argv w)) = received (fst (main argv w)) /\
  echo_sizes (fst (main argv w)) =
  map (fun r => msg_iov_len (fst r)) (sends (fst (main argv w))).
Proof.
  intros Hv.
  assert (H : echo_sizes (fst (main argv w)) = received (fst (main argv w))).
  { destruct (Z.eq_dec (w_bind w) (-1)) as [E|E].
    - now rewrite (main_bind_failed argv w E).
    - rewrite (main_bound argv w E). cbv zeta. cbn [fst].
      change (echo_sizes (?a :: ?b :: ?c :: ?d :: ?t)) with (echo_sizes t).
      change (received (?a :: ?b :: ?c :: ?d :: ?t)) with (received t).
      now apply service_loop_echo_sizes. }
  split; [exact H|]. rewrite H.
  destruct (main_sends argv w) as [He Hr]. cbv zeta in He, Hr.
  rewrite He, Hr. destruct (w_bind w =? -1); [reflexivity|].
  apply service_loop_sends_truncated.
Qed.

Lemma echo_lines_give_received_sizes_witness :
  echo_sizes
    (fst (main [] (sample_world [Recv_datagram hello sender6 [] 0;
                                 Recv_datagram [] sender6 [] 0;
                                 Recv_error]))) = [5; 0].
Proof.
  destruct (echo_lines_give_received_sizes []
              (sample_world [Recv_datagram hello sender6 [] 0;
                             Recv_datagram [] sender6 [] 0;
                             Recv_error])) as [H _].
  - simpl. lia.
  - rewrite H. reflexivity.
Defined.

(** X18.  In a run without receive failure the number of replies is the
    smaller of the number of datagrams received and the number of
    decrements that bring the reply counter to zero, and [main] has
    returned, with status 0, exactly when the latter has been
    reached. *)
Theorem number_of_replies (argv : list option_arg) (w : world) :
  w_bind w <> -1 ->
  forallb is_datagram (w_incoming w) = true ->
  Z.of_nat (length (sends (fst (main argv w)))) =
  Z.min (Z.of_nat (length (w_incoming w)))
    (replies_until_zero (count (parse_options argv))) /\
  snd (main argv w) =
  (if replies_until_zero (count (parse_options argv)) <=?
      Z.of_nat (length (w_incoming w))
   then Exited 0 else Receiving).
Proof.
  intros Hbind Hall.
  destruct (main_sends argv w) as [He _]. cbv zeta in He.
  rewrite (proj2 (Z.eqb_neq _ _) Hbind) in He.
  rewrite He, (main_bound argv w Hbind). cbv zeta. cbn [snd].
  destruct (service_loop_count (verbose (parse_options argv)) (w_incoming w)
              (count (parse_options argv)) (w_stack w) Hall)
    as [Hrun Hstop].
  destruct (Z.leb_spec (replies_until_zero (count (parse_options argv)))
              (Z.of_nat (length (w_incoming w)))) as [Hle|Hlt].
  - destruct (Hstop Hle) as (_ & Ho & Hn). rewrite Hn, Ho. split; [lia|auto].
  - destruct (Hrun Hlt) as [Ho Hn]. rewrite Hn, Ho. split; [lia|auto].
Qed.

Lemma number_of_replies_witness :
  let w := sample_world [Recv_datagram hello sender6 [] 0;
                         Recv_datagram hello sender6 [] 0;
                         Recv_datagram hello sender6 [] 0] in
  Z.of_nat (length (sends (fst (main [Opt_c 2] w)))) = 2 /\
  snd (main [Opt_c 2] w) = Exited 0.
Proof.
  cbv zeta.
  destruct (number_of_replies [Opt_c 2]
              (sample_world [Recv_datagram hello sender6 [] 0;
                             Recv_datagram hello sender6 [] 0;
                             Recv_datagram hello sender6 [] 0]))
    as [Hn Ho].
  - simpl. lia.
  - reflexivity.
  - rewrite Hn, Ho. split; reflexivity.
Defined.
